(** * slack-jirabot: the Bot class (mention detection, dedup buffer,
      response formatting) as a shallow embedding, and its specification.

    The JavaScript of [Bot] is embedded function by function.  Values that
    the JavaScript handles dynamically (issue fields, message properties)
    are kept as [JsVal]; exceptions are an explicit [result]; the issue
    object, which [parseSprint] updates in place, is threaded as state. *)

From Stdlib Require Import ZArith List String Ascii Bool Lia.
From stdpp Require Import base option list strings gmap pretty.

Local Open Scope string_scope.
Local Open Scope Z_scope.
Local Open Scope list_scope.
Set Warnings "-register-all,-clear-no-such-hyp".

(** ** JavaScript values *)

(** The values the bot handles: those JSON gives (an issue, a message, the
    configuration) and the built-in functions a plain object inherits,
    [JFun], given by name and [length].  What an issue or a message holds
    of its own is data: no function is among it, and no object of it has a
    property [toString] or [valueOf] of its own, so that an object converts
    as [Object.prototype] has it.  A number is an integer that a double
    holds exactly and prints in decimal digits. *)
Inductive JsVal : Type :=
| JUndefined
| JNull
| JBool (b : bool)
| JNum (n : Z)
| JStr (s : string)
| JArr (l : list JsVal)
| JObj (kvs : list (string * JsVal))
| JFun (name : string) (arity : Z).

Inductive JsError : Type :=
| TypeError (what : string)
| SyntaxError (what : string)
| OtherError (what : string).

Inductive result (A : Type) : Type :=
| Ok (a : A)
| Throw (e : JsError).
Arguments Ok {A} a.
Arguments Throw {A} e.

Definition isThrow {A} (r : result A) : bool :=
  match r with Throw _ => true | Ok _ => false end.

(** ToBoolean.  A number is an integer that a double holds exactly, as
    the times and ports here are ([NaN] does not occur); [JFun] is a
    built-in function, given by its name and its [length]. *)
Definition truthy (v : JsVal) : bool :=
  match v with
  | JUndefined | JNull => false
  | JBool b => b
  | JNum n => negb (n =? 0)
  | JStr s => negb (String.eqb s "")
  | JArr _ | JObj _ | JFun _ _ => true
  end.

(** ToString, as a template literal or a property key applies it. *)
Fixpoint js_toString (v : JsVal) : string :=
  match v with
  | JUndefined => "undefined"
  | JNull => "null"
  | JBool true => "true"
  | JBool false => "false"
  | JNum n => pretty n
  | JStr s => s
  | JArr l =>
      (fix join (l : list JsVal) : string :=
         match l with
         | [] => ""
         | x :: r =>
             let e := match x with
                      | JUndefined | JNull => ""
                      | _ => js_toString x
                      end in
             match r with
             | [] => e
             | _ :: _ => e +:+ "," +:+ join r
             end
         end) l
  | JObj _ => "[object Object]"
  | JFun name _ => "function " +:+ name +:+ "() { [native code] }"
  end.

(** [a === 'lit'] for a string literal. *)
Definition strict_eq_str (v : JsVal) (lit : string) : bool :=
  match v with
  | JStr s => String.eqb s lit
  | _ => false
  end.

(** The members of [Object.prototype], which every plain object
    inherits: eleven functions and the accessor [__proto__], which gives
    the prototype itself, an object with no data property. *)
Definition Object_prototype (k : string) : option JsVal :=
  if String.eqb k "constructor" then Some (JFun "Object" 1)
  else if String.eqb k "__defineGetter__" then Some (JFun k 2)
  else if String.eqb k "__defineSetter__" then Some (JFun k 2)
  else if String.eqb k "hasOwnProperty" then Some (JFun k 1)
  else if String.eqb k "__lookupGetter__" then Some (JFun k 1)
  else if String.eqb k "__lookupSetter__" then Some (JFun k 1)
  else if String.eqb k "isPrototypeOf" then Some (JFun k 1)
  else if String.eqb k "propertyIsEnumerable" then Some (JFun k 1)
  else if String.eqb k "toString" then Some (JFun k 0)
  else if String.eqb k "valueOf" then Some (JFun k 0)
  else if String.eqb k "toLocaleString" then Some (JFun k 0)
  else if String.eqb k "__proto__" then Some (JObj [])
  else None.

(** [obj[k]] for a plain object used as a map with values in [A]: its own
    property, or the member of [Object.prototype] it inherits, or
    nothing. *)
Inductive Member (A : Type) : Type :=
| Own (a : A)
| Inherited (v : JsVal)
| NoMember.
Arguments Own {A} a.
Arguments Inherited {A} v.
Arguments NoMember {A}.

Definition member {A} (m : gmap string A) (k : string) : Member A :=
  match m !! k with
  | Some a => Own a
  | None =>
      match Object_prototype k with
      | Some v => Inherited v
      | None => NoMember
      end
  end.

(** [v.k] for a data property [k] (as [name], [displayName]): reading a
    property of [undefined] or [null] throws, an object gives its own
    property or the one it inherits, a function has its [name] and
    [length], any other value has no such property. *)
Fixpoint assoc (k : string) (kvs : list (string * JsVal)) : option JsVal :=
  match kvs with
  | [] => None
  | (k', v) :: r => if String.eqb k k' then Some v else assoc k r
  end.

Definition js_prop (v : JsVal) (k : string) : result JsVal :=
  match v with
  | JUndefined => Throw (TypeError ("Cannot read property of undefined: " +:+ k))
  | JNull => Throw (TypeError ("Cannot read property of null: " +:+ k))
  | JObj kvs =>
      Ok (match assoc k kvs with
          | Some w => w
          | None => default JUndefined (Object_prototype k)
          end)
  | JFun name arity =>
      Ok (if String.eqb k "name" then JStr name
          else if String.eqb k "length" then JNum arity
          else JUndefined)
  | _ => Ok JUndefined
  end.

(** ** Regular expressions

    A global regular expression is represented by what
    [String.prototype.match] computes with it: all non-overlapping matches,
    left to right.  [js_match] gives [null] (here [None]) when there is
    none. *)

Record RegExpG : Type := { allMatches : string -> list string }.

Definition js_match (s : string) (r : RegExpG) : option (list string) :=
  match allMatches r s with
  | [] => None
  | found => Some found
  end.

(** ** The bot *)

Record ResponseFormat : Type := {
  rf_description : bool;
  rf_pretext : option string;
  rf_title : option string;
  rf_hideFooter : bool;
  rf_respondInThread : bool;
  rf_fields : option (list string)
}.

Record JiraConfig : Type := {
  protocol : string;
  host : string;
  port : Z;
  base : string;
  sprintField : string;
  customFields : option (list (string * string));
  atResponseFormat : string;
  responseFormat : string
}.

(** The configuration.  An object used as a map ([usermap],
    [channelFormats], [responseFormats]) is the map of its own
    properties, read with [member]; [customFields] keeps the order of its
    keys, which [Object.keys] follows. *)
Record Config : Type := {
  jira : JiraConfig;
  usermap : gmap string string;
  channelFormats : option (gmap string string);
  responseFormats : gmap string ResponseFormat
}.

(** The fields of [this] that the methods below use.  [ticketBuffer] is
    the [Map] from ticket hash to the time of the last response. *)
Record Bot : Type := {
  config : Config;
  ticketBuffer : gmap string Z;
  TICKET_BUFFER_LENGTH : Z;
  ticketRegExp : RegExpG
}.

(** [constructor (config)]; the regular expression compiled from
    [config.jira.regex] is passed in compiled. *)
Definition constructor (cfg : Config) (re : RegExpG) : Bot :=
  {| config := cfg;
     ticketBuffer := ∅;
     TICKET_BUFFER_LENGTH := 300000;
     ticketRegExp := re |}.

Definition set_ticketBuffer (bot : Bot) (buf : gmap string Z) : Bot :=
  {| config := config bot;
     ticketBuffer := buf;
     TICKET_BUFFER_LENGTH := TICKET_BUFFER_LENGTH bot;
     ticketRegExp := ticketRegExp bot |}.

(** ** hashTicket *)

Definition hashTicket (channel : JsVal) (ticket : string) : string :=
  js_toString channel +:+ "-" +:+ ticket.

(** ** parseTickets *)

(** [this.ticketBuffer.get(ticketHash) || 0] *)
Definition get_or_0 (buf : gmap string Z) (ticketHash : string) : Z :=
  match buf !! ticketHash with
  | Some t => if t =? 0 then 0 else t
  | None => 0
  end.

(** The locals that the [forEach] callback of [parseTickets] closes over
    and updates; [uniques] is the set of the own properties of the object
    [uniques]. *)
Record ParseState : Type := {
  retVal : list string;
  uniques : gset string;
  buffer : gmap string Z
}.

(** [uniques.hasOwnProperty(ticket)]: the method is the inherited one
    until a ticket of that name became an own property of [uniques]. *)
Definition uniques_hasOwnProperty (uniques : gset string) (ticket : string)
    : result bool :=
  if bool_decide ("hasOwnProperty" ∈ uniques)
  then Throw (TypeError "uniques.hasOwnProperty is not a function")
  else Ok (bool_decide (ticket ∈ uniques)).

(** [uniques[ticket] = 1]: assigning to [__proto__] calls the inherited
    setter, which ignores a number. *)
Definition uniques_set (uniques : gset string) (ticket : string) : gset string :=
  if String.eqb ticket "__proto__" then uniques else {[ticket]} ∪ uniques.

(** The body of the [found.forEach] callback: the locals afterwards, or
    what it threw, which it does before it changes any of them. *)
Definition parseTickets_each (channel : JsVal) (now len : Z)
    (st : ParseState) (ticket : string) : result ParseState :=
  let ticketHash := hashTicket channel ticket in
  match uniques_hasOwnProperty (uniques st) ticket with
  | Throw e => Throw e
  | Ok has =>
      if negb has && (len <? now - get_or_0 (buffer st) ticketHash)
      then Ok {| retVal := retVal st ++ [ticket];
                 uniques := uniques_set (uniques st) ticket;
                 buffer := <[ticketHash := now]> (buffer st) |}
      else Ok st
  end.

(** [found.forEach(callback)]: the locals when it ended, and the exception
    that ended it if one did. *)
Fixpoint forEach (callback : ParseState -> string -> result ParseState)
    (found : list string) (st : ParseState) : option JsError * ParseState :=
  match found with
  | [] => (None, st)
  | ticket :: rest =>
      match callback st ticket with
      | Ok st' => forEach callback rest st'
      | Throw e => (Some e, st)
      end
  end.

(** [parseTickets (channel, message)]; [now] is the value [Date.now()]
    returns.  The result is the returned array, or the exception, and the
    bot afterwards. *)
Definition parseTickets (bot : Bot) (channel message : JsVal) (now : Z)
    : result (list string) * Bot :=
  if negb (truthy channel) || negb (truthy message) then (Ok [], bot)
  else
    match message with
    | JStr text =>
        match js_match text (ticketRegExp bot) with
        | Some found =>
            match forEach
                    (parseTickets_each channel now (TICKET_BUFFER_LENGTH bot))
                    found
                    {| retVal := []; uniques := ∅;
                       buffer := ticketBuffer bot |} with
            | (None, st) => (Ok (retVal st), set_ticketBuffer bot (buffer st))
            | (Some e, st) => (Throw e, set_ticketBuffer bot (buffer st))
            end
        | None => (Ok [], bot)
        end
    | _ => (Throw (TypeError "message.match is not a function"), bot)
    end.

(** ** cleanupTicketBuffer *)

Definition cleanupTicketBuffer (bot : Bot) (now : Z) : Bot :=
  set_ticketBuffer bot
    (filter (fun kv => negb (TICKET_BUFFER_LENGTH bot <? now - snd kv) = true)
            (ticketBuffer bot)).

(** ** Issues and the collaborators of the bot *)

(** An issue as JIRA returns it: its key and the object [issue.fields]. *)
Record Issue : Type := {
  key : string;
  fields : gmap string JsVal
}.

(** [issue.fields[k] = v] *)
Definition set_field (issue : Issue) (k : string) (v : JsVal) : Issue :=
  {| key := key issue; fields := <[k := v]> (fields issue) |}.

(** [issue.fields[k]]: the own property, else the inherited one. *)
Definition get_field (issue : Issue) (k : string) : JsVal :=
  match fields issue !! k with
  | Some v => v
  | None => default JUndefined (Object_prototype k)
  end.

(** What the bot calls and does not define: [moment(v).calendar()],
    [J2S.toSlack], [eval] of a configured template with [issue] in scope,
    [jira.findIssue] (the promise resolved, [Ok], or rejected, [Throw]),
    the two entries of [package.json] the footer prints, and the
    conversion of a string to a number, as far as [s > 0] needs it.  A
    template is an expression that reads the issue, as the template
    literals of the default configuration are. *)
Record Host : Type := {
  Number_gt_0 : string -> bool;
  moment_calendar : JsVal -> string;
  J2S_toSlack : JsVal -> result string;
  js_eval : string -> Issue -> result JsVal;
  jira_findIssue : string -> result Issue;
  PACKAGE_version : string;
  PACKAGE_homepage : string
}.

(** Computations of [issueResponse]: they may throw, and they act on the
    issue object they were handed. *)
Definition M (A : Type) : Type := Issue -> result A * Issue.

Definition ret {A} (a : A) : M A := fun issue => (Ok a, issue).
Definition throw {A} (e : JsError) : M A := fun issue => (Throw e, issue).
Definition lift {A} (r : result A) : M A := fun issue => (r, issue).
Definition bind {A B} (m : M A) (k : A -> M B) : M B :=
  fun issue =>
    match m issue with
    | (Ok a, issue') => k a issue'
    | (Throw e, issue') => (Throw e, issue')
    end.
Definition the_issue : M Issue := fun issue => (Ok issue, issue).
Definition issue_field (k : string) : M JsVal :=
  fun issue => (Ok (get_field issue k), issue).

Notation "'let*' x ':=' m 'in' k" := (bind m (fun x => k))
  (at level 10, x name, m at level 100, k at level 200).

(** [for (const x of xs) { out.push(body(x)) }] *)
Fixpoint for_push {A B} (body : A -> M B) (xs : list A) : M (list B) :=
  match xs with
  | [] => ret []
  | x :: xs' =>
      let* y := body x in
      let* ys := for_push body xs' in
      ret (y :: ys)
  end.

(** ** Scanning strings *)

Fixpoint string_forall (p : ascii -> bool) (s : string) : bool :=
  match s with
  | EmptyString => true
  | String c r => p c && string_forall p r
  end.

Fixpoint span (p : ascii -> bool) (s : string) : string * string :=
  match s with
  | EmptyString => ("", "")
  | String c r =>
      if p c then let '(a, b) := span p r in (String c a, b) else ("", s)
  end.

Fixpoint strip_prefix (p s : string) : option string :=
  match p, s with
  | EmptyString, _ => Some s
  | String a p', String b s' => if Ascii.eqb a b then strip_prefix p' s' else None
  | String _ _, EmptyString => None
  end.

Definition not_comma (c : ascii) : bool := negb (Ascii.eqb c ",").

(** [/,name=([^,]+),/] tried at the start of [s]: the capture. *)
Definition name_here (s : string) : option string :=
  match strip_prefix ",name=" s with
  | Some r =>
      match span not_comma r with
      | (String c v, String _ _) => Some (String c v)
      | _ => None
      end
  | None => None
  end.

(** [s.match(/,name=([^,]+),/)]: [matches[1]] of the leftmost match. *)
Fixpoint match_name (s : string) : option string :=
  match name_here s with
  | Some v => Some v
  | None =>
      match s with
      | EmptyString => None
      | String _ r => match_name r
      end
  end.

(** ** parseSprint *)

Fixpoint pop (l : list JsVal) : option (list JsVal * JsVal) :=
  match l with
  | [] => None
  | [x] => Some ([], x)
  | x :: r => match pop r with
              | Some (r', y) => Some (x :: r', y)
              | None => None
              end
  end.

(** [v > 0]: the number, or the number the value converts to. *)
Definition js_gt_0 (h : Host) (v : JsVal) : bool :=
  match v with
  | JNum n => 0 <? n
  | JBool b => b
  | JStr s => Number_gt_0 h s
  | JArr l => Number_gt_0 h (js_toString (JArr l))
  | JUndefined | JNull | JObj _ | JFun _ _ => false
  end.

(** [parseSprint (customField)].  The argument is the array that
    [issue.fields[ref]] holds, passed by reference: [customField.pop()]
    shortens that very array, which the issue still holds afterwards.  A
    value that is not an array has no [pop]. *)
Definition parseSprint (h : Host) (ref : string) : M string :=
  fun issue =>
    match get_field issue ref with
    | JArr l =>
        match pop l with
        | Some (l', sprintString) =>
            let issue' := set_field issue ref (JArr l') in
            match sprintString with
            | JStr s =>
                match match_name s with
                | Some name => (Ok name, issue')
                | None => (Ok "", issue')
                end
            | _ => (Throw (TypeError "sprintString.match is not a function"), issue')
            end
        | None => (Ok "", issue)
        end
    | JStr s =>
        if String.eqb s "" then (Ok "", issue)
        else (Throw (TypeError "customField.pop is not a function"), issue)
    | JObj kvs =>
        if js_gt_0 h (default JUndefined (assoc "length" kvs))
        then (Throw (TypeError "customField.pop is not a function"), issue)
        else (Ok "", issue)
    | JFun _ arity =>
        if 0 <? arity
        then (Throw (TypeError "customField.pop is not a function"), issue)
        else (Ok "", issue)
    | _ => (Ok "", issue)
    end.

(** ** jira2Slack, formatIssueDescription, buildIssueLink *)

Definition jira2Slack (bot : Bot) (username : JsVal) : string :=
  match member (usermap (config bot)) (js_toString username) with
  | Own u => if String.eqb u "" then "" else "@" +:+ u
  | Inherited v => "@" +:+ js_toString v
  | NoMember => ""
  end.

Fixpoint strip_trailing_slash (s : string) : string :=
  match s with
  | EmptyString => ""
  | String c r =>
      match r with
      | EmptyString => if Ascii.eqb c "/" then "" else s
      | String _ _ => String c (strip_trailing_slash r)
      end
  end.

(** [base.replace(/^\/|\/$/g, '')] *)
Definition strip_slashes (s : string) : string :=
  strip_trailing_slash
    (match s with
     | String c r => if Ascii.eqb c "/" then r else s
     | EmptyString => ""
     end).

Definition buildIssueLink (bot : Bot) (issueKey : string) : string :=
  let j := jira (config bot) in
  let base_ := if String.eqb (base j) "" then "/browse/"
               else "/" +:+ strip_slashes (base j) +:+ "/browse/" in
  protocol j +:+ "://" +:+ host j +:+ ":" +:+ pretty (port j) +:+ base_ +:+ issueKey.

(** ** issueResponse *)

(** What a field formatter returns, before [issueResponse] sets its title. *)
Record Formatted : Type := {
  fmt_value : JsVal;
  fmt_short : bool
}.

(** An entry of [response.fields]. *)
Record Field : Type := {
  title : string;
  value : JsVal;
  short : bool
}.

(** The attachment [issueResponse] builds.  An optional property is [None]
    when it was never assigned; an entry of [att_fields] is [None] when
    [null] was pushed. *)
Record Attachment : Type := {
  att_fallback : JsVal;
  att_respondInThread : bool;
  att_text : option string;
  att_mrkdwn_in : list string;
  att_pretext : option JsVal;
  att_title : JsVal;
  att_title_link : string;
  att_footer : option string;
  att_fields : list (option Field)
}.

Section Responses.

Variable h : Host.
Variable bot : Bot.

Definition formatIssueDescription (description : JsVal) : result string :=
  let desc := if truthy description then description
              else JStr "Ticket does not contain a description" in
  J2S_toSlack h desc.

(** [this.jira2Slack(person.name) || person.displayName] with [person] the
    object [issue.fields[who]]. *)
Definition slackOrDisplayName (who : string) : M JsVal :=
  let* person := issue_field who in
  let* name := lift (js_prop person "name") in
  let slack := jira2Slack bot name in
  if negb (String.eqb slack "") then ret (JStr slack)
  else
    let* person := issue_field who in
    lift (js_prop person "displayName").

(** The object [fieldFormatters]: [None] for a name that is not an own
    property, else the formatter, whose result [None] is [undefined]. *)
Definition fieldFormatters (field : string) : option (M (option Formatted)) :=
  if String.eqb field "Created" then Some (
    let* created := issue_field "created" in
    ret (Some {| fmt_value := JStr (moment_calendar h created); fmt_short := true |}))
  else if String.eqb field "Updated" then Some (
    let* updated := issue_field "updated" in
    ret (Some {| fmt_value := JStr (moment_calendar h updated); fmt_short := true |}))
  else if String.eqb field "Status" then Some (
    let* status := issue_field "status" in
    let* name := lift (js_prop status "name") in
    ret (Some {| fmt_value := name; fmt_short := true |}))
  else if String.eqb field "Priority" then Some (
    let* priority := issue_field "priority" in
    let* name := lift (js_prop priority "name") in
    ret (Some {| fmt_value := name; fmt_short := true |}))
  else if String.eqb field "Reporter" then Some (
    let* v := slackOrDisplayName "reporter" in
    ret (Some {| fmt_value := v; fmt_short := true |}))
  else if String.eqb field "Assignee" then Some (
    let* assignee := issue_field "assignee" in
    if truthy assignee then
      let* v := slackOrDisplayName "assignee" in
      ret (Some {| fmt_value := v; fmt_short := true |})
    else ret (Some {| fmt_value := JStr "Unassigned"; fmt_short := true |}))
  else if String.eqb field "Sprint" then Some (
    if negb (String.eqb (sprintField (jira (config bot))) "") then
      let* sprint := parseSprint h (sprintField (jira (config bot))) in
      ret (Some {| fmt_value := JStr (if String.eqb sprint "" then "Not Assigned"
                                      else sprint);
                   fmt_short := false |})
    else ret None)
  else None.

(** The body of the loop over [responseFormat.fields]: the value pushed. *)
Definition formatField (field : string) : M (option Field) :=
  match fieldFormatters field with
  | Some formatter =>
      let* jiraField := formatter in
      match jiraField with
      | Some f =>
          ret (Some {| title := field; value := fmt_value f; short := fmt_short f |})
      | None => throw (TypeError "Cannot set property 'title' of undefined")
      end
  | None =>
      match customFields (jira (config bot)) with
      | Some (kv :: kvs) =>
          let* issue := the_issue in
          ret (fold_left
                 (fun _ customField =>
                    Some {| title := field;
                            value := get_field issue customField;
                            short := false |})
                 (map fst (kv :: kvs)) None)
      | _ => ret None
      end
  end.

(** [eval(template)] when the template is configured (a non-empty string). *)
Definition eval_configured (template : option string) : M (option JsVal) :=
  match template with
  | Some src =>
      if String.eqb src "" then ret None
      else
        let* issue := the_issue in
        let* v := lift (js_eval h src issue) in
        ret (Some v)
  | None => ret None
  end.

(** [this.config.responseFormats[format]]: a name that [responseFormats]
    only inherits gives a function, or the prototype, on which every
    option of a format reads [undefined]. *)
Definition responseFormats_get (format : string) : option ResponseFormat :=
  match member (responseFormats (config bot)) format with
  | Own responseFormat => Some responseFormat
  | Inherited _ =>
      Some {| rf_description := false;
              rf_pretext := None;
              rf_title := None;
              rf_hideFooter := false;
              rf_respondInThread := false;
              rf_fields := None |}
  | NoMember => None
  end.

Definition issueResponse (issue : Issue) (format : string)
    : result Attachment * Issue :=
  match responseFormats_get format with
  | None =>
      (Throw (TypeError "Cannot read property 'description' of undefined"), issue)
  | Some responseFormat =>
      (let* text :=
         (if rf_description responseFormat then
            let* description := issue_field "description" in
            let* t := lift (formatIssueDescription description) in
            ret (Some t)
          else ret None) in
       let* summary := issue_field "summary" in
       let* pretext := eval_configured (rf_pretext responseFormat) in
       let* title_ := eval_configured (rf_title responseFormat) in
       let* issue1 := the_issue in
       let footer :=
         if rf_hideFooter responseFormat then None
         else Some ("Slack Jira " +:+ PACKAGE_version h +:+ " - "
                    +:+ PACKAGE_homepage h) in
       let* fields_ :=
         (match rf_fields responseFormat with
          | Some names => for_push formatField names
          | None => ret []
          end) in
       ret {| att_fallback := summary;
              att_respondInThread := rf_respondInThread responseFormat;
              att_text := text;
              att_mrkdwn_in := ["text"];
              att_pretext := pretext;
              att_title := default summary title_;
              att_title_link := buildIssueLink bot (key issue1);
              att_footer := footer;
              att_fields := fields_ |}) issue
  end.

End Responses.

(** ** handleMessage *)

(** The properties of an incoming message that [handleMessage] reads. *)
Record Message : Type := {
  m_type : JsVal;
  m_event : JsVal;
  m_channel : JsVal;
  m_text : JsVal
}.

(** What [handleMessage] does to the outside: the lines it logs and the
    replies it hands to the Slack client, [slackResponse.attachments]
    being the argument of a reply. *)
Inductive Action : Type :=
| LogDetected (found : list string)
| LogFormat (channel : JsVal) (format : string)
| LogFindError (issueId : string) (error : JsError)
| LogCouldNotRespond
| Reply (attachments : list Attachment)
| ReplyInThread (attachments : list Attachment).

Section Dispatch.

Variable h : Host.

(** The [responseFormat] chosen inside the [then] callback, as the name
    it is used as: it is only printed and used as a key of
    [responseFormats], so that what [channelFormats] inherits for the
    channel stands here as the string it converts to. *)
Definition selectedResponseFormat (bot : Bot) (message : Message) : string :=
  if strict_eq_str (m_event message) "direct_mention"
  then atResponseFormat (jira (config bot))
  else
    match channelFormats (config bot) with
    | Some formats =>
        match member formats (js_toString (m_channel message)) with
        | Own f => if String.eqb f "" then responseFormat (jira (config bot)) else f
        | Inherited v => js_toString v
        | NoMember => responseFormat (jira (config bot))
        end
    | None => responseFormat (jira (config bot))
    end.

(** [findIssue(issueId).then(...).catch(...)], once the promise is
    settled. *)
Definition respondTo (bot : Bot) (message : Message) (issueId : string)
    : list Action :=
  match jira_findIssue h issueId with
  | Ok issue =>
      let responseFormat := selectedResponseFormat bot message in
      LogFormat (m_channel message) responseFormat ::
      match fst (issueResponse h bot issue responseFormat) with
      | Ok response =>
          if att_respondInThread response
          then [ReplyInThread [response]]
          else [Reply [response]]
      | Throw error => [LogFindError issueId error]
      end
  | Throw error => [LogFindError issueId error]
  end.

(** [handleMessage (message)] with [Date.now() = now]: what it did, in the
    order of the tickets found, and the bot afterwards.  [Throw] is an
    exception that leaves [handleMessage]. *)
Definition handleMessage (bot : Bot) (message : Message) (now : Z)
    : result (list Action) * Bot :=
  if strict_eq_str (m_type message) "ambient" && truthy (m_text message) then
    match parseTickets bot (m_channel message) (m_text message) now with
    | (Ok found, bot') =>
        match found with
        | [] => (Ok [], bot')
        | _ :: _ =>
            (Ok (LogDetected found :: concat (map (respondTo bot' message) found)),
             bot')
        end
    | (Throw e, bot') => (Throw e, bot')
    end
  else (Ok [LogCouldNotRespond], bot).

End Dispatch.

(** ** The default configuration ([config.default.js]) *)

Definition config_default : Config :=
  {| jira :=
       {| protocol := "https";
          host := "jira.yourhost.domain";
          port := 443;
          base := "";
          sprintField := "";
          customFields := Some [];
          atResponseFormat := "full";
          responseFormat := "micro" |};
     usermap := ∅;
     channelFormats := Some ∅;
     responseFormats :=
       <["micro" :=
           {| rf_description := false;
              rf_pretext := None;
              rf_title := Some "`${issue.key}: ${issue.fields.summary}`";
              rf_hideFooter := true;
              rf_respondInThread := true;
              rf_fields := None |}]>
       (<["minimal" :=
           {| rf_description := true;
              rf_pretext := Some "`Here is some information on ${issue.key}`";
              rf_title := None;
              rf_hideFooter := false;
              rf_respondInThread := false;
              rf_fields := None |}]>
       (<["full" :=
           {| rf_description := true;
              rf_pretext := Some "`Here is some information on ${issue.key}`";
              rf_title := None;
              rf_hideFooter := false;
              rf_respondInThread := false;
              rf_fields := Some ["Created"; "Updated"; "Status"; "Priority";
                                 "Reporter"; "Assignee"; "Sprint"] |}]> ∅)) |}.

(** The default [config.jira.regex], [([A-Z][A-Z0-9]+-[0-9]+)], as a
    global regular expression. *)

Definition is_upper (c : ascii) : bool :=
  let n := nat_of_ascii c in (65 <=? n)%nat && (n <=? 90)%nat.
Definition is_digit (c : ascii) : bool :=
  let n := nat_of_ascii c in (48 <=? n)%nat && (n <=? 57)%nat.
Definition is_upper_or_digit (c : ascii) : bool := is_upper c || is_digit c.

(** The pattern tried at the start of [s]: the match and what follows. *)
Definition ticket_here (s : string) : option (string * string) :=
  match s with
  | String c r =>
      if is_upper c then
        match span is_upper_or_digit r with
        | (String a1 a, String dash r1) =>
            if Ascii.eqb dash "-" then
              match span is_digit r1 with
              | (String d1 d, r2) =>
                  Some (String c (String a1 a) +:+ "-" +:+ String d1 d, r2)
              | _ => None
              end
            else None
        | _ => None
        end
      else None
  | EmptyString => None
  end.

Fixpoint scan_tickets (fuel : nat) (s : string) : list string :=
  match fuel with
  | O => []
  | S fuel' =>
      match ticket_here s with
      | Some (t, rest) => t :: scan_tickets fuel' rest
      | None =>
          match s with
          | String _ r => scan_tickets fuel' r
          | EmptyString => []
          end
      end
  end.

Definition regex_default : RegExpG :=
  {| allMatches := fun s => scan_tickets (S (String.length s)) s |}.

(** ** A host to run the bot on

    [eval] restricted to what the configured templates are: one template
    literal whose substitutions are property paths from [issue].  A literal
    that is not closed is a [SyntaxError], a path through [undefined] a
    [TypeError]; any other expression is outside this fragment. *)

Fixpoint split_dots (s : string) : list string :=
  match s with
  | EmptyString => [""]
  | String c r =>
      if Ascii.eqb c "." then "" :: split_dots r
      else match split_dots r with
           | x :: xs => String c x :: xs
           | [] => [String c ""]
           end
  end.

Definition eval_path (e : string) (issue : Issue) : result JsVal :=
  match split_dots e with
  | ["issue"; "key"] => Ok (JStr (key issue))
  | "issue" :: "fields" :: k :: props =>
      fold_left (fun r p => match r with
                            | Ok v => js_prop v p
                            | Throw x => Throw x
                            end)
                props (Ok (get_field issue k))
  | _ => Throw (OtherError "expression outside the fragment")
  end.

Definition not_brace (c : ascii) : bool := negb (Ascii.eqb c "}").

Fixpoint eval_literal (fuel : nat) (s : string) (issue : Issue) : result string :=
  match fuel with
  | O => Throw (SyntaxError "Unterminated template literal")
  | S fuel' =>
      match s with
      | EmptyString => Throw (SyntaxError "Unterminated template literal")
      | String c r =>
          if Ascii.eqb c "`" then
            match r with
            | EmptyString => Ok ""
            | String _ _ => Throw (OtherError "expression outside the fragment")
            end
          else if Ascii.eqb c "$" && (match r with
                                     | String b _ => Ascii.eqb b "{"
                                     | EmptyString => false
                                     end) then
            match span not_brace (String.substring 1 (String.length r) r) with
            | (e, String _ rest) =>
                match eval_path e issue with
                | Ok v =>
                    match eval_literal fuel' rest issue with
                    | Ok t => Ok (js_toString v +:+ t)
                    | Throw x => Throw x
                    end
                | Throw x => Throw x
                end
            | (_, EmptyString) => Throw (SyntaxError "Unterminated template literal")
            end
          else
            match eval_literal fuel' r issue with
            | Ok t => Ok (String c t)
            | Throw x => Throw x
            end
      end
  end.

Definition eval_template (src : string) (issue : Issue) : result JsVal :=
  match src with
  | String c body =>
      if Ascii.eqb c "`" then
        match eval_literal (String.length body) body issue with
        | Ok t => Ok (JStr t)
        | Throw x => Throw x
        end
      else Throw (OtherError "expression outside the fragment")
  | EmptyString => Ok JUndefined
  end.

(** A host for running examples: a string of decimal digits is the
    number it writes, dates print as the tracker sent them, descriptions
    pass unconverted, and the tracker knows the issues of [issues]. *)
Definition host_of (issues : list (string * Issue)) : Host :=
  {| Number_gt_0 := fun s =>
       match s with
       | EmptyString => false
       | String _ _ =>
           string_forall is_digit s
           && negb (string_forall (fun c => Ascii.eqb c "0") s)
       end;
     moment_calendar := fun v => match v with
                                 | JStr s => s
                                 | JUndefined => "Today"
                                 | _ => "Invalid date"
                                 end;
     J2S_toSlack := fun v => match v with
                             | JStr s => Ok s
                             | _ => Throw (TypeError "jiraMD.replace is not a function")
                             end;
     js_eval := eval_template;
     jira_findIssue := fun issueId =>
       match list_find (fun kv => String.eqb (fst kv) issueId = true) issues with
       | Some (_, kv) => Ok (snd kv)
       | None => Throw (OtherError "Issue Does Not Exist")
       end;
     PACKAGE_version := "1.0.0";
     PACKAGE_homepage := "https://example.org/slack-jirabot" |}.

Definition issue_PROJ_123 : Issue :=
  {| key := "PROJ-123";
     fields :=
       <["summary" := JStr "Blah"]>
       (<["description" := JStr "Some text"]>
       (<["created" := JStr "2015-05-01T00:00:00.000Z"]>
       (<["updated" := JStr "2015-05-01T01:00:00.000Z"]>
       (<["status" := JObj [("name", JStr "Open")]]>
       (<["priority" := JObj [("name", JStr "Low")]]>
       (<["reporter" := JObj [("name", JStr "bob"); ("displayName", JStr "Bob")]]>
       (<["assignee" := JObj [("name", JStr "fred"); ("displayName", JStr "Fred")]]>
       (<["customfield_10000" :=
            JArr [JStr "derp,name=Sprint 7,foo";
                  JStr "derp,name=Sprint 8,foo"]]> ∅)))))))) |}.


(** ** Notions the statements use *)

(** Following the specification's words for [extract]: the distinct
    identifiers of [l] in order of first appearance, [seen] being those
    already met. *)
Fixpoint firstOccurrences (seen : gset string) (l : list string) : list string :=
  match l with
  | [] => []
  | x :: l' =>
      if bool_decide (x ∈ seen) then firstOccurrences seen l'
      else x :: firstOccurrences ({[x]} ∪ seen) l'
  end.

(** [s] holds a token [,name=v,] with [v] a non-empty run without comma. *)
Definition has_name_token (s v : string) : Prop :=
  exists pre post,
    s = pre +:+ ",name=" +:+ v +:+ "," +:+ post
    /\ v <> "" /\ string_forall not_comma v = true.

(** What [issueResponse] computes before it turns to the fields: the text,
    the pretext and the configured title, or what was thrown on the way. *)
Definition render_head (h : Host) (issue : Issue) (rf : ResponseFormat)
    : result (option string * option JsVal * option JsVal) :=
  let rendered template :=
    match template with
    | Some src =>
        if String.eqb src "" then Ok None
        else match js_eval h src issue with
             | Ok v => Ok (Some v)
             | Throw e => Throw e
             end
    | None => Ok None
    end in
  match (if rf_description rf then
           match formatIssueDescription h (get_field issue "description") with
           | Ok t => Ok (Some t)
           | Throw e => Throw e
           end
         else Ok None) with
  | Throw e => Throw e
  | Ok text =>
      match rendered (rf_pretext rf) with
      | Throw e => Throw e
      | Ok pretext =>
          match rendered (rf_title rf) with
          | Throw e => Throw e
          | Ok title_ => Ok (text, pretext, title_)
          end
      end
  end.

(** Whatever issue [m] starts from, the issue it ends with is related to
    it by [R]. *)
Definition keeps (R : Issue -> Issue -> Prop) {A} (m : M A) : Prop :=
  forall i, R i (snd (m i)).

(** The built-in fields on people and metadata, and, for those whose
    formatter reads a property of an issue field, that field. *)
Definition person_fields : list string :=
  ["Created"; "Updated"; "Status"; "Priority"; "Reporter"; "Assignee"].

Definition dereferenced : list (string * string) :=
  [("Status", "status"); ("Priority", "priority"); ("Reporter", "reporter")].

(** A field the issue does not carry: [undefined] or [null]. *)
Definition nullish (v : JsVal) : bool :=
  match v with
  | JUndefined | JNull => true
  | _ => false
  end.

(** [issue'] is [issue] but for the array in field [k], which lost
    elements at its end (possibly none). *)
Definition popped_from (k : string) (issue issue' : Issue) : Prop :=
  issue' = issue
  \/ exists kept gone,
       get_field issue k = JArr (kept ++ gone)
       /\ issue' = set_field issue k (JArr kept).

(** The buffer after responding to the tickets [ks] at time [now]. *)
Definition record_all (channel : JsVal) (now : Z) (ks : list string)
    (buf : gmap string Z) : gmap string Z :=
  fold_left (fun b k => <[hashTicket channel k := now]> b) ks buf.

(** ** Sample data *)

Definition bot_default : Bot := constructor config_default regex_default.

(** A value of [Date.now()]. *)
Definition t0 : Z := 1500000000000.

Definition C1 : JsVal := JStr "C1".

(** A configuration as an operator would write it: the default one with
    a sprint field, format overrides for two channels, a format naming a
    field that is not built in, a format of the fields on people and
    metadata, and a format whose pretext is a template literal left open. *)
Definition config_sample : Config :=
  {| jira :=
       {| protocol := "https";
          host := "jira.yourhost.domain";
          port := 443;
          base := "/jira/";
          sprintField := "customfield_10000";
          customFields := Some [];
          atResponseFormat := "full";
          responseFormat := "micro" |};
     usermap := <["bob" := "robert"]> ∅;
     channelFormats := Some (<["C2" := "minimal"]> (<["C3" := "broken"]> ∅));
     responseFormats :=
       <["points" :=
           {| rf_description := false;
              rf_pretext := None;
              rf_title := None;
              rf_hideFooter := true;
              rf_respondInThread := false;
              rf_fields := Some ["Status"; "Story Points"; "Priority"] |}]>
       (<["people" :=
           {| rf_description := true;
              rf_pretext := None;
              rf_title := None;
              rf_hideFooter := true;
              rf_respondInThread := false;
              rf_fields := Some ["Created"; "Updated"; "Status"; "Priority";
                                 "Reporter"; "Assignee"] |}]>
       (<["broken" :=
           {| rf_description := false;
              rf_pretext := Some "`Here is some information on ${issue.key";
              rf_title := None;
              rf_hideFooter := true;
              rf_respondInThread := false;
              rf_fields := None |}]>
        (responseFormats config_default))) |}.

Definition bot_sample : Bot := constructor config_sample regex_default.

(** An issue that carries no dates and no assignee. *)
Definition issue_AB_7 : Issue :=
  {| key := "AB-7";
     fields :=
       <["summary" := JStr "Derp"]>
       (<["status" := JObj [("name", JStr "Open")]]>
       (<["priority" := JObj [("name", JStr "High")]]>
       (<["reporter" := JObj [("name", JStr "bob"); ("displayName", JStr "Bob")]]>
       (<["customfield_10000" := JNull]> ∅)))) |}.

Definition host_sample : Host :=
  host_of [("PROJ-123", issue_PROJ_123); ("AB-7", issue_AB_7)].

Definition ambient (channel text : string) : Message :=
  {| m_type := JStr "ambient"; m_event := JStr "ambient";
     m_channel := JStr channel; m_text := JStr text |}.

(** The buffer [buf] does not hold back ticket [k] at time [now]: the
    second test of the [forEach] callback of [parseTickets]. *)
Definition notSuppressed (buf : gmap string Z) (channel : JsVal) (now len : Z)
    (k : string) : bool :=
  len <? now - get_or_0 buf (hashTicket channel k).

(** The tickets [handleMessage] logged as detected. *)
Definition detected (acts : list Action) : list string :=
  match acts with
  | LogDetected found :: _ => found
  | _ => []
  end.

(** The names whose formatter shows a person, with the issue field read. *)
Definition people : list (string * string) :=
  [("Reporter", "reporter"); ("Assignee", "assignee")].

(** [cfg] with other settings for the tracker. *)
Definition with_jira (cfg : Config) (j : JiraConfig) : Config :=
  {| jira := j;
     usermap := usermap cfg;
     channelFormats := channelFormats cfg;
     responseFormats := responseFormats cfg |}.

(** The sample configuration with two custom fields configured. *)
Definition bot_custom : Bot :=
  constructor
    (with_jira config_sample
       {| protocol := "https";
          host := "jira.yourhost.domain";
          port := 443;
          base := "jira";
          sprintField := "customfield_10000";
          customFields := Some [("customfield_10002", "Story Points");
                                ("customfield_10003", "Team")];
          atResponseFormat := "full";
          responseFormat := "micro" |})
    regex_default.

(** A bot that responded to two tickets in channel C1, long ago and just
    before [t0]. *)
Definition bot_busy : Bot :=
  set_ticketBuffer bot_default
    (<[hashTicket C1 "OLD-1" := t0 - 400000]>
       (<[hashTicket C1 "NEW-2" := t0 - 1000]> ∅)).

(** A ticket whose name the object [uniques] holds like any other: it is
    neither the name of the method called on [uniques] nor [__proto__],
    which an assignment does not make an own property. *)
Definition plain_ticket (k : string) : Prop :=
  k <> "hasOwnProperty" /\ k <> "__proto__".


(** A pattern that takes every run of letters and underscores for a
    ticket, and a bot configured with it. *)
Definition is_word (c : ascii) : bool :=
  let n := nat_of_ascii c in
  ((65 <=? n)%nat && (n <=? 90)%nat) || ((97 <=? n)%nat && (n <=? 122)%nat)
  || (n =? 95)%nat.

Fixpoint scan_words (fuel : nat) (s : string) : list string :=
  match fuel with
  | O => []
  | S fuel' =>
      match span is_word s with
      | (String c w, rest) => String c w :: scan_words fuel' rest
      | (EmptyString, String _ rest) => scan_words fuel' rest
      | (EmptyString, EmptyString) => []
      end
  end.

Definition regex_words : RegExpG :=
  {| allMatches := fun s => scan_words (S (String.length s)) s |}.

Definition bot_words : Bot := constructor config_default regex_words.

(** * Specification *)

(** ** The dedup buffer *)

Lemma app_inv_head_str (p a b : string) : p +:+ a = p +:+ b -> a = b.
Proof.
  induction p as [|c p IH]; simpl; intros H; [exact H|].
  injection H as H. auto.
Qed.

Lemma hashTicket_inj channel k1 k2 :
  hashTicket channel k1 = hashTicket channel k2 -> k1 = k2.
Proof.
  unfold hashTicket. intros H.
  apply app_inv_head_str in H. by apply (app_inv_head_str "-") in H.
Qed.

Lemma set_ticketBuffer_same bot : set_ticketBuffer bot (ticketBuffer bot) = bot.
Proof. destruct bot; reflexivity. Qed.

Lemma filter_none {A} (P : A -> Prop) `{forall x, Decision (P x)} (l : list A) :
  (forall x, x ∈ l -> ~ P x) -> filter P l = [].
Proof.
  induction l as [|x l IH]; intros Hall; [reflexivity|].
  rewrite filter_cons_False by (apply Hall; by left).
  apply IH. intros y Hy. apply Hall. by right.
Qed.

Lemma filter_all {A} (P : A -> Prop) `{forall x, Decision (P x)} (l : list A) :
  (forall x, x ∈ l -> P x) -> filter P l = l.
Proof.
  induction l as [|x l IH]; intros Hall; [reflexivity|].
  rewrite filter_cons_True by (apply Hall; by left).
  f_equal. apply IH. intros y Hy. apply Hall. by right.
Qed.

Lemma filter_same {A} (P Q : A -> Prop) `{forall x, Decision (P x)}
    `{forall x, Decision (Q x)} (l : list A) :
  (forall x, x ∈ l -> P x <-> Q x) -> filter P l = filter Q l.
Proof.
  induction l as [|x l IH]; intros Hall; [reflexivity|].
  assert (filter P l = filter Q l) as E
    by (apply IH; intros y Hy; apply Hall; by right).
  destruct (decide (P x)) as [HP|HP].
  - rewrite !filter_cons_True; [by rewrite E|by apply Hall; [left|]|done].
  - rewrite !filter_cons_False; [done| |done].
    intros HQ. apply HP. apply Hall; [by left|done].
Qed.

Section Dedup.

Variables (channel : JsVal) (now len : Z).

Local Abbreviation each := (parseTickets_each channel now len).
Local Abbreviation record_all := (record_all channel now).

Lemma each_cases st k :
  ("hasOwnProperty" ∈ uniques st /\ exists e, each st k = Throw e)
  \/ (("hasOwnProperty" ∉ uniques st)
      /\ each st k = Ok st
      /\ ((k ∈ uniques st)
          \/ ~ (len < now - get_or_0 (buffer st) (hashTicket channel k))))
  \/ (("hasOwnProperty" ∉ uniques st)
      /\ each st k = Ok {| retVal := retVal st ++ [k];
                           uniques := uniques_set (uniques st) k;
                           buffer := <[hashTicket channel k := now]> (buffer st) |}
      /\ (k ∉ uniques st)
      /\ len < now - get_or_0 (buffer st) (hashTicket channel k)).
Proof.
  unfold parseTickets_each, uniques_hasOwnProperty.
  destruct (decide ("hasOwnProperty" ∈ uniques st)) as [Hh|Hh].
  { rewrite bool_decide_eq_true_2 by done. left. eauto. }
  rewrite bool_decide_eq_false_2 by done. right.
  destruct (bool_decide (k ∈ uniques st)) eqn:Hu; simpl.
  - left. repeat split; try done. left. by apply bool_decide_eq_true in Hu.
  - apply bool_decide_eq_false in Hu.
    destruct (len <? now - get_or_0 (buffer st) (hashTicket channel k)) eqn:Ht.
    + right. apply Z.ltb_lt in Ht. auto.
    + left. apply Z.ltb_ge in Ht. repeat split; try done. right. lia.
Qed.

Lemma forEach_spec l st :
  exists new,
    retVal (snd (forEach each l st)) = retVal st ++ new
    /\ buffer (snd (forEach each l st)) = record_all new (buffer st)
    /\ (forall k, k ∈ new -> k ∈ l).
Proof.
  revert st. induction l as [|x l IH]; intros st; simpl.
  - exists []. rewrite app_nil_r. split; [done|]. split; [done|]. intros k Hk. done.
  - destruct (each_cases st x) as [[_ [e E]]|[(_ & E & _)|(_ & E & _)]]; rewrite E.
    + exists []. simpl. rewrite app_nil_r. split; [done|]. split; [done|].
      intros k Hk. by apply elem_of_nil in Hk.
    + destruct (IH st) as (new & Hr & Hb & Hin).
      exists new. repeat split; auto. intros k Hk. right. auto.
    + destruct (IH {| retVal := retVal st ++ [x];
                      uniques := uniques_set (uniques st) x;
                      buffer := <[hashTicket channel x := now]> (buffer st) |})
        as (new & Hr & Hb & Hin).
      simpl in Hr, Hb. exists (x :: new). simpl.
      rewrite <- app_assoc in Hr. split; [exact Hr|]. split; [exact Hb|].
      intros k Hk. apply elem_of_cons in Hk as [->|Hk]; [left|right; auto].
Qed.

Lemma record_all_lookup_in ks buf k :
  k ∈ ks -> record_all ks buf !! hashTicket channel k = Some now.
Proof.
  revert buf. induction ks as [|x ks IH]; intros buf Hk; [by apply elem_of_nil in Hk|].
  simpl. destruct (decide (k ∈ ks)) as [Hin|Hnin]; [by apply IH|].
  apply elem_of_cons in Hk as [->|Hk]; [|done].
  clear IH. revert buf. induction ks as [|y ks IH]; intros buf; simpl.
  - apply lookup_insert_eq.
  - apply not_elem_of_cons in Hnin as [Hne Hnin].
    rewrite (insert_insert_ne buf).
    + by apply IH.
    + intros E. apply hashTicket_inj in E. congruence.
Qed.

Lemma record_all_lookup_notin ks buf k :
  k ∉ ks -> record_all ks buf !! hashTicket channel k = buf !! hashTicket channel k.
Proof.
  revert buf. induction ks as [|x ks IH]; intros buf Hk; [done|].
  apply not_elem_of_cons in Hk as [Hne Hk]. simpl.
  rewrite IH by done. apply lookup_insert_ne.
  intros E. apply hashTicket_inj in E. congruence.
Qed.

(** On plain tickets the loop ends without an exception, and what it
    gathers is known from the buffer it started with. *)
Lemma forEach_filter buf0 l st :
  Forall plain_ticket l ->
  "hasOwnProperty" ∉ uniques st ->
  (forall k, k ∉ uniques st ->
             buffer st !! hashTicket channel k = buf0 !! hashTicket channel k) ->
  fst (forEach each l st) = None
  /\ retVal (snd (forEach each l st))
     = retVal st
       ++ firstOccurrences (uniques st)
            (filter (fun k => notSuppressed buf0 channel now len k = true) l).
Proof.
  revert st. induction l as [|x l IH]; intros st Hplain Hh Hinv; simpl.
  - by rewrite app_nil_r.
  - apply Forall_cons in Hplain as [[Hx1 Hx2] Hplain].
    assert (x ∉ uniques st ->
            get_or_0 (buffer st) (hashTicket channel x)
            = get_or_0 buf0 (hashTicket channel x)) as Hget.
    { intros Hx. unfold get_or_0. by rewrite Hinv. }
    destruct (each_cases st x) as [[? _]|[(_ & E & Hc)|(_ & E & Hu & Ht)]];
      [done| |]; rewrite E.
    + destruct (IH st Hplain Hh Hinv) as [IH1 IH2]. split; [exact IH1|].
      rewrite IH2.
      destruct (decide (x ∈ uniques st)) as [Hx|Hx].
      * destruct (notSuppressed buf0 channel now len x) eqn:Hn.
        -- rewrite filter_cons_True by done. simpl.
           by rewrite bool_decide_eq_true_2.
        -- rewrite filter_cons_False; [done|]. by rewrite Hn.
      * destruct Hc as [?|Hc]; [done|].
        rewrite filter_cons_False; [done|].
        unfold notSuppressed. rewrite <- Hget by done.
        intros Hlt. apply Z.ltb_lt in Hlt. done.
    + assert (uniques_set (uniques st) x = {[x]} ∪ uniques st) as Hset.
      { unfold uniques_set. by destruct (String.eqb_spec x "__proto__"). }
      rewrite Hset.
      rewrite filter_cons_True.
      2:{ unfold notSuppressed. rewrite <- Hget by done. by apply Z.ltb_lt. }
      simpl. rewrite bool_decide_eq_false_2 by done.
      destruct (IH {| retVal := retVal st ++ [x];
                      uniques := {[x]} ∪ uniques st;
                      buffer := <[hashTicket channel x := now]> (buffer st) |})
        as [IH1 IH2]; simpl.
      * exact Hplain.
      * set_solver.
      * intros k Hk. rewrite lookup_insert_ne.
        -- apply Hinv. set_solver.
        -- intros E'. apply hashTicket_inj in E'. set_solver.
      * split; [exact IH1|]. rewrite IH2. simpl. by rewrite <- app_assoc.
Qed.

End Dedup.

Lemma parseTickets_found bot channel text now :
  truthy channel = true -> text <> "" ->
  parseTickets bot channel (JStr text) now
  = match forEach (parseTickets_each channel now (TICKET_BUFFER_LENGTH bot))
            (allMatches (ticketRegExp bot) text)
            {| retVal := []; uniques := ∅; buffer := ticketBuffer bot |} with
    | (None, st) => (Ok (retVal st), set_ticketBuffer bot (buffer st))
    | (Some e, st) => (Throw e, set_ticketBuffer bot (buffer st))
    end.
Proof.
  intros Hc Ht. unfold parseTickets. rewrite Hc. simpl.
  destruct (String.eqb_spec text ""); [done|]. simpl.
  unfold js_match. destruct (allMatches (ticketRegExp bot) text); simpl.
  - by rewrite set_ticketBuffer_same.
  - reflexivity.
Qed.

(** Whatever [parseTickets] is given and however it ends, the bot
    afterwards differs from the bot before by the buffer entries of the
    tickets gathered, which are the tickets returned if it returns. *)
Lemma parseTickets_records bot channel message now :
  exists r,
    snd (parseTickets bot channel message now)
    = set_ticketBuffer bot (record_all channel now r (ticketBuffer bot))
    /\ forall r', fst (parseTickets bot channel message now) = Ok r' -> r' = r.
Proof.
  unfold parseTickets.
  destruct (negb (truthy channel) || negb (truthy message)) eqn:Hg.
  { exists []. simpl. rewrite set_ticketBuffer_same. split; [done|congruence]. }
  destruct message as [| | | |s| | |];
    try (exists []; simpl; rewrite set_ticketBuffer_same;
         split; [reflexivity | discriminate]).
  unfold js_match. destruct (allMatches (ticketRegExp bot) s) as [|x l] eqn:Hf.
  { exists []. simpl. rewrite set_ticketBuffer_same. split; [done|congruence]. }
  destruct (forEach_spec channel now (TICKET_BUFFER_LENGTH bot) (x :: l)
              {| retVal := []; uniques := ∅; buffer := ticketBuffer bot |})
    as (new & Hr & Hb & _).
  destruct (forEach _ (x :: l) _) as [[e|] st]; simpl in *;
    exists new; rewrite Hb; (split; [reflexivity|]); [discriminate|congruence].
Qed.

Lemma parseTickets_snd bot channel message now r :
  fst (parseTickets bot channel message now) = Ok r ->
  snd (parseTickets bot channel message now)
  = set_ticketBuffer bot (record_all channel now r (ticketBuffer bot)).
Proof.
  intros Hr.
  destruct (parseTickets_records bot channel message now) as (r' & Hb & Hr').
  by rewrite (Hr' _ Hr).
Qed.

(** C3 (as amended): after a first allowed notification for (conversation,
    key) at time [now], a second call for the same pair at [now + delta]
    is suppressed when [delta <= TICKET_BUFFER_LENGTH] and allowed when
    [delta > TICKET_BUFFER_LENGTH]: the comparison of the code is strict. *)
Theorem C3_second_call_after_delta bot channel text1 text2 k now delta bot1 :
  truthy channel = true -> text1 <> "" -> text2 <> "" ->
  allMatches (ticketRegExp bot) text1 = [k] ->
  allMatches (ticketRegExp bot) text2 = [k] ->
  parseTickets bot channel (JStr text1) now = (Ok [k], bot1) ->
  (delta <= TICKET_BUFFER_LENGTH bot ->
   fst (parseTickets bot1 channel (JStr text2) (now + delta)) = Ok [])
  /\ (TICKET_BUFFER_LENGTH bot < delta ->
      fst (parseTickets bot1 channel (JStr text2) (now + delta)) = Ok [k]).
Proof.
  intros Hc Ht1 Ht2 Hm1 Hm2 Hfirst.
  pose proof (parseTickets_snd bot channel (JStr text1) now [k]) as Hb.
  rewrite Hfirst in Hb. simpl in Hb. specialize (Hb eq_refl). subst bot1.
  rewrite parseTickets_found by done. simpl. rewrite Hm2. simpl.
  unfold parseTickets_each, uniques_hasOwnProperty. simpl.
  rewrite !bool_decide_eq_false_2 by set_solver. simpl.
  unfold get_or_0. rewrite lookup_insert_eq.
  assert ((now + delta - (if now =? 0 then 0 else now)) = delta) as E.
  { destruct (Z.eqb_spec now 0); lia. }
  rewrite E. split; intros Hd.
  - apply Z.ltb_ge in Hd. by rewrite Hd.
  - apply Z.ltb_lt in Hd. by rewrite Hd.
Qed.

(** C6: the tickets a call returns are exactly those it records in the
    buffer, at the time of the call, and the entry of a ticket it does not
    return is left as it was; a call that returns nothing leaves the bot,
    and so the whole buffer, unchanged. *)
Theorem C6_write_on_allow_only bot channel message now r bot' :
  parseTickets bot channel message now = (Ok r, bot') ->
  bot' = set_ticketBuffer bot (record_all channel now r (ticketBuffer bot))
  /\ (forall k, k ∈ r ->
        ticketBuffer bot' !! hashTicket channel k = Some now)
  /\ (forall k, k ∉ r ->
        ticketBuffer bot' !! hashTicket channel k
        = ticketBuffer bot !! hashTicket channel k)
  /\ (r = [] -> bot' = bot).
Proof.
  intros Hp.
  pose proof (parseTickets_snd bot channel message now r) as Hb.
  rewrite Hp in Hb. simpl in Hb. specialize (Hb eq_refl).
  subst bot'. split; [reflexivity|]. simpl. split; [|split].
  - intros k Hk. by apply record_all_lookup_in.
  - intros k Hk. by apply record_all_lookup_notin.
  - intros ->. simpl. apply set_ticketBuffer_same.
Qed.

(** ** Extraction: first occurrences *)

Lemma elem_of_firstOccurrences seen l k :
  k ∈ firstOccurrences seen l <-> k ∈ l /\ k ∉ seen.
Proof.
  revert seen. induction l as [|x l IH]; intros seen; simpl.
  - split; [intros H; by apply elem_of_nil in H | intros [H _]; by apply elem_of_nil in H].
  - destruct (decide (x ∈ seen)) as [Hx|Hx].
    + rewrite bool_decide_eq_true_2 by done. rewrite IH. set_solver.
    + rewrite bool_decide_eq_false_2 by done.
      rewrite elem_of_cons, IH. destruct (decide (k = x)); set_solver.
Qed.

Lemma NoDup_firstOccurrences seen l : NoDup (firstOccurrences seen l).
Proof.
  revert seen. induction l as [|x l IH]; intros seen; simpl; [constructor|].
  destruct (bool_decide (x ∈ seen)); [apply IH|].
  constructor; [|apply IH].
  rewrite elem_of_firstOccurrences. set_solver.
Qed.

Lemma firstOccurrences_app seen l1 l2 :
  firstOccurrences seen (l1 ++ l2)
  = firstOccurrences seen l1 ++ firstOccurrences (list_to_set l1 ∪ seen) l2.
Proof.
  revert seen. induction l1 as [|x l1 IH]; intros seen; simpl.
  - by rewrite (left_id_L ∅ (∪)).
  - destruct (decide (x ∈ seen)) as [Hx|Hx].
    + rewrite bool_decide_eq_true_2 by done. rewrite IH.
      f_equal. f_equal. set_solver.
    + rewrite bool_decide_eq_false_2 by done. simpl. rewrite IH.
      f_equal. f_equal. f_equal. set_solver.
Qed.

Lemma firstOccurrences_sublist seen l : sublist (firstOccurrences seen l) l.
Proof.
  revert seen. induction l as [|x l IH]; intros seen; simpl; [constructor|].
  destruct (bool_decide (x ∈ seen)); [apply sublist_cons|apply sublist_skip]; apply IH.
Qed.

(** C8: with no dedup entry for the identifiers of a text (and the clock
    past the buffer length, as [Date.now()] is), [parseTickets] returns the
    distinct identifiers matched, each once, in order of first appearance:
    an identifier stands right after the distinct identifiers that precede
    its first occurrence.  The identifiers are plain tickets: a match
    named [hasOwnProperty] or [__proto__] is not kept apart by the object
    [uniques]. *)
Theorem C8_each_identifier_once_in_order bot channel text now found :
  truthy channel = true -> text <> "" ->
  allMatches (ticketRegExp bot) text = found ->
  Forall plain_ticket found ->
  TICKET_BUFFER_LENGTH bot < now ->
  (forall k, k ∈ found -> ticketBuffer bot !! hashTicket channel k = None) ->
  fst (parseTickets bot channel (JStr text) now) = Ok (firstOccurrences ∅ found)
  /\ NoDup (firstOccurrences ∅ found)
  /\ (forall k, k ∈ firstOccurrences ∅ found <-> k ∈ found)
  /\ (forall pre k post,
        found = pre ++ k :: post -> k ∉ pre ->
        exists post',
          firstOccurrences ∅ found = firstOccurrences ∅ pre ++ k :: post'
          /\ sublist post' post /\ k ∉ post').
Proof.
  intros Hc Ht Hf Hplain Hnow Hfresh.
  rewrite parseTickets_found by done. rewrite Hf.
  destruct (forEach_filter channel now (TICKET_BUFFER_LENGTH bot) (ticketBuffer bot)
              found {| retVal := []; uniques := ∅; buffer := ticketBuffer bot |}
              Hplain) as [Hnone Hret]; [set_solver|done|].
  destruct (forEach _ found _) as [[e|] st]; simpl in *; [discriminate|].
  rewrite Hret. rewrite filter_all.
  2:{ intros k Hk. unfold notSuppressed, get_or_0. rewrite (Hfresh k Hk).
      apply Z.ltb_lt. lia. }
  repeat split.
  - apply NoDup_firstOccurrences.
  - intros Hk. apply elem_of_firstOccurrences in Hk. tauto.
  - intros Hk. apply elem_of_firstOccurrences. set_solver.
  - intros pre k post -> Hpre.
    rewrite firstOccurrences_app. simpl.
    rewrite bool_decide_eq_false_2 by set_solver.
    eexists. split; [reflexivity|]. split.
    + apply firstOccurrences_sublist.
    + rewrite elem_of_firstOccurrences. set_solver.
Qed.

(** C9: when the text or the channel is empty or absent, [parseTickets]
    returns the empty array; it does not throw and leaves the bot as it
    was. *)
Theorem C9_empty_or_absent_input bot channel message now :
  truthy channel = false \/ truthy message = false ->
  parseTickets bot channel message now = (Ok [], bot).
Proof.
  intros [H|H]; unfold parseTickets; rewrite H; simpl; [reflexivity|].
  by rewrite orb_true_r.
Qed.

Lemma C3_second_call_after_delta_witness :
  let bot1 := snd (parseTickets bot_default C1 (JStr "see PROJ-123") t0) in
  fst (parseTickets bot1 C1 (JStr "PROJ-123 again") (t0 + 300000)) = Ok []
  /\ fst (parseTickets bot1 C1 (JStr "PROJ-123 again") (t0 + 300001))
     = Ok ["PROJ-123"].
Proof.
  intros bot1. split.
  - apply (C3_second_call_after_delta bot_default C1 "see PROJ-123"
             "PROJ-123 again" "PROJ-123" t0 300000 bot1);
      [reflexivity | discriminate | discriminate
      | vm_compute; reflexivity | vm_compute; reflexivity
      | vm_compute; reflexivity | vm_compute; discriminate].
  - apply (C3_second_call_after_delta bot_default C1 "see PROJ-123"
             "PROJ-123 again" "PROJ-123" t0 300001 bot1);
      [reflexivity | discriminate | discriminate
      | vm_compute; reflexivity | vm_compute; reflexivity
      | vm_compute; reflexivity | vm_compute; reflexivity].
Defined.

(** C3 as the specification words it fails at [delta = W]: the second call,
    exactly one buffer length after the first, is still suppressed. *)
Lemma C3_counterexample :
  let bot1 := snd (parseTickets bot_default C1 (JStr "see PROJ-123") t0) in
  fst (parseTickets bot_default C1 (JStr "see PROJ-123") t0) = Ok ["PROJ-123"]
  /\ ~ (forall delta,
          TICKET_BUFFER_LENGTH bot_default <= delta ->
          fst (parseTickets bot1 C1 (JStr "see PROJ-123") (t0 + delta))
          = Ok ["PROJ-123"]).
Proof.
  split; [vm_compute; reflexivity|].
  intros H. specialize (H 300000 ltac:(vm_compute; discriminate)).
  vm_compute in H. discriminate H.
Qed.

Lemma C6_write_on_allow_only_witness :
  let bot' := snd (parseTickets bot_default C1 (JStr "see PROJ-123") t0) in
  ticketBuffer bot' !! hashTicket C1 "PROJ-123" = Some t0.
Proof.
  intros bot'.
  apply (C6_write_on_allow_only bot_default C1 (JStr "see PROJ-123") t0
           ["PROJ-123"] bot'); [vm_compute; reflexivity|].
  apply list_elem_of_In. simpl. left. reflexivity.
Defined.

Lemma C8_each_identifier_once_in_order_witness :
  fst (parseTickets bot_default C1
         (JStr "see PROJ-123 and AB-7, PROJ-123 again") t0)
  = Ok ["PROJ-123"; "AB-7"].
Proof.
  apply (C8_each_identifier_once_in_order bot_default C1
           "see PROJ-123 and AB-7, PROJ-123 again" t0
           ["PROJ-123"; "AB-7"; "PROJ-123"]);
    [reflexivity | discriminate | vm_compute; reflexivity
    | repeat constructor; discriminate
    | vm_compute; reflexivity | intros k _; reflexivity].
Defined.

Lemma C9_empty_or_absent_input_witness :
  parseTickets bot_default C1 (JStr "") t0 = (Ok [], bot_default)
  /\ parseTickets bot_default JUndefined (JStr "PROJ-123") t0 = (Ok [], bot_default).
Proof.
  split.
  - apply C9_empty_or_absent_input. right. reflexivity.
  - apply C9_empty_or_absent_input. left. reflexivity.
Defined.

(** ** The sprint name *)

Lemma app_nil_l_str (s : string) : "" +:+ s = s.
Proof. reflexivity. Qed.

Lemma app_cons_str c (p s : string) : String c p +:+ s = String c (p +:+ s).
Proof. reflexivity. Qed.

Ltac str_simpl := rewrite ?app_nil_l_str, ?app_cons_str.

Lemma span_spec p s a b :
  span p s = (a, b) ->
  s = a +:+ b /\ string_forall p a = true
  /\ (b = "" \/ exists c r, b = String c r /\ p c = false).
Proof.
  revert a b. induction s as [|c s IH]; simpl; intros a b H.
  - injection H as <- <-. auto.
  - destruct (p c) eqn:Hp.
    + destruct (span p s) as [a' b'] eqn:Hs. injection H as <- <-.
      destruct (IH a' b' eq_refl) as (-> & Hall & Hb).
      str_simpl. simpl. rewrite Hp, Hall. auto.
    + injection H as <- <-. repeat split; eauto.
Qed.

Lemma span_run p v c post :
  string_forall p v = true -> p c = false ->
  span p (v +:+ String c post) = (v, String c post).
Proof.
  induction v as [|x v IH]; str_simpl; simpl; intros Hv Hc.
  - by rewrite Hc.
  - apply andb_true_iff in Hv as [Hx Hv]. rewrite Hx, IH by done. reflexivity.
Qed.

Lemma strip_prefix_spec p s r : strip_prefix p s = Some r -> s = p +:+ r.
Proof.
  revert s. induction p as [|a p IH]; intros s; simpl.
  - intros [= ->]. reflexivity.
  - destruct s as [|b s]; [discriminate|].
    destruct (Ascii.eqb_spec a b) as [->|]; [|discriminate].
    intros H. str_simpl. by rewrite (IH _ H).
Qed.

Lemma strip_prefix_app p r : strip_prefix p (p +:+ r) = Some r.
Proof.
  induction p as [|a p IH]; str_simpl; simpl; [reflexivity|].
  by rewrite Ascii.eqb_refl.
Qed.

Lemma not_comma_false c : not_comma c = false -> c = ","%char.
Proof.
  unfold not_comma. destruct (Ascii.eqb_spec c ","); [done|discriminate].
Qed.

Lemma name_here_sound s v :
  name_here s = Some v ->
  exists post, s = ",name=" +:+ v +:+ "," +:+ post
               /\ v <> "" /\ string_forall not_comma v = true.
Proof.
  unfold name_here. destruct (strip_prefix ",name=" s) as [r|] eqn:Hp; [|discriminate].
  apply strip_prefix_spec in Hp.
  destruct (span not_comma r) as [a b] eqn:Hs.
  destruct a as [|c a]; [discriminate|]. destruct b as [|d b]; [discriminate|].
  intros [= <-].
  destruct (span_spec _ _ _ _ Hs) as (-> & Hall & [Hb|(c' & r' & [= -> ->] & Hd)]);
    [discriminate|].
  apply not_comma_false in Hd. subst c'.
  exists r'. split; [exact Hp|]. split; [discriminate|exact Hall].
Qed.

Lemma name_here_complete v post :
  v <> "" -> string_forall not_comma v = true ->
  name_here (",name=" +:+ v +:+ "," +:+ post) = Some v.
Proof.
  intros Hv Hall. unfold name_here. rewrite strip_prefix_app.
  change ("," +:+ post) with (String "," post).
  rewrite span_run by done. destruct v; [done|reflexivity].
Qed.

Lemma match_name_sound s v : match_name s = Some v -> has_name_token s v.
Proof.
  induction s as [|c s IH]; simpl.
  - discriminate.
  - destruct (name_here (String c s)) eqn:E.
    + intros [= ->]. apply name_here_sound in E as (post & E & ? & ?).
      exists "", post. auto.
    + intros H. destruct (IH H) as (pre & post & -> & ? & ?).
      exists (String c pre), post. auto.
Qed.

Lemma match_name_here s v : name_here s = Some v -> match_name s = Some v.
Proof.
  destruct s as [|c s]; [discriminate|]. intros H. simpl. by rewrite H.
Qed.

Lemma match_name_complete s v :
  has_name_token s v -> exists v', match_name s = Some v'.
Proof.
  intros (pre & post & -> & Hv & Hall).
  induction pre as [|c pre IH]; str_simpl.
  - exists v. by apply match_name_here, name_here_complete.
  - destruct IH as (v' & IH). simpl.
    destruct (name_here _); eauto.
Qed.

Lemma match_name_nonempty s v : match_name s = Some v -> v <> "".
Proof. intros H. apply match_name_sound in H as (_ & _ & _ & H & _). exact H. Qed.

Lemma pop_snoc l x : pop (l ++ [x]) = Some (l, x).
Proof.
  induction l as [|y l IH]; simpl; [reflexivity|].
  rewrite IH. destruct (l ++ [x]) eqn:E; [|reflexivity].
  by destruct l.
Qed.

Lemma pop_spec l l' x : pop l = Some (l', x) -> l = l' ++ [x].
Proof.
  revert l'. induction l as [|y l IH]; simpl; intros l'; [discriminate|].
  destruct l as [|z l].
  - intros [= <- <-]. reflexivity.
  - destruct (pop (z :: l)) as [[r' w]|]; [|discriminate].
    intros [= <- <-]. simpl. f_equal. by apply IH.
Qed.

(** C7: with a sprint field configured and holding a non-empty list of
    strings, the Sprint entry is built from the last string: a token
    [,name=v,] of it gives the value, and when it has none the entry is
    still there, with the value "Not Assigned". *)
Theorem C7_sprint_last_wins h bot issue earlier s :
  sprintField (jira (config bot)) <> "" ->
  get_field issue (sprintField (jira (config bot))) = JArr (earlier ++ [JStr s]) ->
  exists name,
    fst (formatField h bot "Sprint" issue)
    = Ok (Some {| title := "Sprint"; value := JStr name; short := false |})
    /\ (forall v, match_name s = Some v -> name = v)
    /\ ((exists v, has_name_token s v) -> has_name_token s name)
    /\ ((forall v, ~ has_name_token s v) -> name = "Not Assigned").
Proof.
  intros Hsf Hfield.
  unfold formatField, fieldFormatters. simpl.
  destruct (String.eqb_spec (sprintField (jira (config bot))) ""); [done|]. simpl.
  unfold bind, parseSprint. rewrite Hfield, pop_snoc.
  destruct (match_name s) as [v|] eqn:Hm; simpl.
  - pose proof (match_name_nonempty _ _ Hm) as Hne.
    destruct (String.eqb_spec v ""); [done|].
    exists v. split; [reflexivity|]. split; [congruence|].
    split; [intros _; by apply match_name_sound|].
    intros Hno. exfalso. apply (Hno v). by apply match_name_sound.
  - exists "Not Assigned". split; [reflexivity|]. split; [discriminate|].
    split; [|reflexivity].
    intros (v & Hv). apply match_name_complete in Hv as (v' & Hv'). congruence.
Qed.

Lemma C7_sprint_last_wins_witness :
  exists name,
    fst (formatField host_sample bot_sample "Sprint" issue_PROJ_123)
    = Ok (Some {| title := "Sprint"; value := JStr name; short := false |})
    /\ (forall v, match_name "derp,name=Sprint 8,foo" = Some v -> name = v).
Proof.
  destruct (C7_sprint_last_wins host_sample bot_sample issue_PROJ_123
              [JStr "derp,name=Sprint 7,foo"] "derp,name=Sprint 8,foo")
    as (name & H1 & H2 & _); [discriminate | vm_compute; reflexivity |].
  exists name. split; [exact H1 | exact H2].
Defined.

(** The value list of the specification's example: the last sprint wins. *)
Example parseSprint_Sprint_8 :
  fst (parseSprint host_sample "customfield_10000" issue_PROJ_123) = Ok "Sprint 8".
Proof. vm_compute. reflexivity. Qed.

(** ** The frame of the computations on an issue *)

Section Frame.

Variable R : Issue -> Issue -> Prop.
Hypothesis R_refl : forall i, R i i.
Hypothesis R_trans : forall i j k, R i j -> R j k -> R i k.

Local Abbreviation keeps := (keeps R).

Lemma keeps_ret {A} (a : A) : keeps (ret a).
Proof. intros i. apply R_refl. Qed.

Lemma keeps_throw {A} e : keeps (@throw A e).
Proof. intros i. apply R_refl. Qed.

Lemma keeps_lift {A} (r : result A) : keeps (lift r).
Proof. intros i. apply R_refl. Qed.

Lemma keeps_the_issue : keeps the_issue.
Proof. intros i. apply R_refl. Qed.

Lemma keeps_issue_field k : keeps (issue_field k).
Proof. intros i. apply R_refl. Qed.

Lemma keeps_bind {A B} (m : M A) (k : A -> M B) :
  keeps m -> (forall a, keeps (k a)) -> keeps (bind m k).
Proof.
  intros Hm Hk i. unfold bind. specialize (Hm i).
  destruct (m i) as [[a|e] i']; simpl in *; [|exact Hm].
  eapply R_trans; [exact Hm|apply Hk].
Qed.

Lemma keeps_for_push {A B} (body : A -> M B) xs :
  (forall x, x ∈ xs -> keeps (body x)) -> keeps (for_push body xs).
Proof.
  induction xs as [|x xs IH]; intros Hb; simpl; [apply keeps_ret|].
  apply keeps_bind; [apply Hb; by left|]. intros y.
  apply keeps_bind; [apply IH; intros z Hz; apply Hb; by right|].
  intros ys. apply keeps_ret.
Qed.

End Frame.

(** ** issueResponse, step by step *)

Lemma responseFormats_get_own bot format rf :
  responseFormats (config bot) !! format = Some rf ->
  responseFormats_get bot format = Some rf.
Proof. intros H. unfold responseFormats_get, member. by rewrite H. Qed.

Lemma responseFormats_get_inv bot format rf :
  responseFormats_get bot format = Some rf ->
  responseFormats (config bot) !! format = Some rf
  \/ (responseFormats (config bot) !! format = None
      /\ is_Some (Object_prototype format)
      /\ rf = {| rf_description := false;
                 rf_pretext := None;
                 rf_title := None;
                 rf_hideFooter := false;
                 rf_respondInThread := false;
                 rf_fields := None |}).
Proof.
  unfold responseFormats_get, member.
  destruct (responseFormats (config bot) !! format) as [rf'|]; [by left; congruence|].
  destruct (Object_prototype format) as [v|]; [|discriminate].
  intros [= <-]. right. eauto.
Qed.

Lemma issueResponse_eq h bot issue format rf :
  responseFormats_get bot format = Some rf ->
  issueResponse h bot issue format
  = match render_head h issue rf with
    | Throw e => (Throw e, issue)
    | Ok (text, pretext, title_) =>
        match for_push (formatField h bot) (default [] (rf_fields rf)) issue with
        | (Ok fields_, issue') =>
            (Ok {| att_fallback := get_field issue "summary";
                   att_respondInThread := rf_respondInThread rf;
                   att_text := text;
                   att_mrkdwn_in := ["text"];
                   att_pretext := pretext;
                   att_title := default (get_field issue "summary") title_;
                   att_title_link := buildIssueLink bot (key issue);
                   att_footer :=
                     if rf_hideFooter rf then None
                     else Some ("Slack Jira " +:+ PACKAGE_version h +:+ " - "
                                +:+ PACKAGE_homepage h);
                   att_fields := fields_ |}, issue')
        | (Throw e, issue') => (Throw e, issue')
        end
    end.
Proof.
  intros Hrf. unfold issueResponse. rewrite Hrf.
  unfold render_head, eval_configured, bind, ret, lift, the_issue, issue_field.
  destruct (rf_description rf); simpl;
    [destruct (formatIssueDescription h (get_field issue "description")); simpl;
     [|reflexivity]|];
    (destruct (rf_pretext rf) as [src|]; simpl;
     [destruct (String.eqb src ""); simpl;
      [|destruct (js_eval h src issue); simpl; [|reflexivity]]|]);
    (destruct (rf_title rf) as [src'|]; simpl;
     [destruct (String.eqb src' ""); simpl;
      [|destruct (js_eval h src' issue); simpl; [|reflexivity]]|]);
    (destruct (rf_fields rf) as [names|]; simpl;
     [destruct (for_push (formatField h bot) names issue) as [[fs|e] i']; reflexivity
     |reflexivity]).
Qed.

(** ** What composing does to the issue *)

Lemma get_set_field i k v : get_field (set_field i k v) k = v.
Proof. unfold get_field, set_field. simpl. by rewrite lookup_insert_eq. Qed.

Lemma get_set_field_ne i k k' v :
  k <> k' -> get_field (set_field i k v) k' = get_field i k'.
Proof. intros Hne. unfold get_field, set_field. simpl. by rewrite lookup_insert_ne. Qed.

Lemma set_set_field i k v w : set_field (set_field i k v) k w = set_field i k w.
Proof. unfold set_field. simpl. by rewrite insert_insert_eq. Qed.

Lemma popped_from_refl k i : popped_from k i i.
Proof. by left. Qed.

Lemma popped_from_trans k i j l :
  popped_from k i j -> popped_from k j l -> popped_from k i l.
Proof.
  intros [->|(kept & gone & Hi & ->)] Hjl; [exact Hjl|].
  destruct Hjl as [->|(kept' & gone' & Hj & ->)].
  - right. eauto.
  - right. rewrite get_set_field in Hj. injection Hj as ->.
    exists kept', (gone' ++ gone). rewrite set_set_field.
    split; [|reflexivity]. by rewrite app_assoc.
Qed.

Lemma parseSprint_popped h ref : keeps (popped_from ref) (parseSprint h ref).
Proof.
  intros i. unfold parseSprint.
  destruct (get_field i ref) as [| | | |s|l|kvs|f a] eqn:Hf; simpl;
    try apply popped_from_refl.
  - destruct (String.eqb s ""); apply popped_from_refl.
  - destruct (pop l) as [[l' x]|] eqn:Hp; [|apply popped_from_refl].
    apply pop_spec in Hp. subst l.
    assert (popped_from ref i (set_field i ref (JArr l'))) by (right; eauto).
    destruct x; simpl; try done. by destruct (match_name s).
  - destruct (js_gt_0 h _); apply popped_from_refl.
  - destruct (0 <? a); apply popped_from_refl.
Qed.

Section FormatFieldFrame.

Variables (h : Host) (bot : Bot).
Variable R : Issue -> Issue -> Prop.
Hypothesis R_refl : forall i, R i i.
Hypothesis R_trans : forall i j k, R i j -> R j k -> R i k.

Ltac keeps_step :=
  first [ apply (keeps_ret R R_refl) | apply (keeps_throw R R_refl)
        | apply (keeps_lift R R_refl) | apply (keeps_the_issue R R_refl)
        | apply (keeps_issue_field R R_refl)
        | apply (keeps_bind R R_trans); [| intros ?] ].

Ltac keeps_all :=
  repeat first
    [ keeps_step
    | match goal with
      | |- keeps _ (match ?x with _ => _ end) => destruct x
      | |- keeps _ (let _ := _ in _) => cbv zeta
      end ].

Lemma formatField_keeps name :
  (name = "Sprint" -> sprintField (jira (config bot)) <> "" ->
   keeps R (parseSprint h (sprintField (jira (config bot))))) ->
  keeps R (formatField h bot name).
Proof.
  intros Hsprint. unfold formatField, fieldFormatters.
  destruct (String.eqb_spec (sprintField (jira (config bot))) "") as [Hsf|Hsf];
    repeat match goal with
           | |- context [String.eqb name ?lit] =>
               destruct (String.eqb_spec name lit)
           end;
    simpl negb; cbv iota; keeps_all.
  by apply Hsprint.
Qed.

End FormatFieldFrame.

Lemma issueResponse_frame h bot issue format (R : Issue -> Issue -> Prop) :
  (forall i, R i i) -> (forall i j k, R i j -> R j k -> R i k) ->
  (forall rf names name,
     responseFormats (config bot) !! format = Some rf ->
     rf_fields rf = Some names -> name ∈ names ->
     keeps R (formatField h bot name)) ->
  R issue (snd (issueResponse h bot issue format)).
Proof.
  intros R_refl R_trans Hfields.
  destruct (responseFormats_get bot format) as [rf|] eqn:Hrf.
  - rewrite (issueResponse_eq _ _ _ _ _ Hrf).
    destruct (render_head h issue rf) as [[[text pretext] title_]|e]; simpl;
      [|apply R_refl].
    assert (keeps R (for_push (formatField h bot) (default [] (rf_fields rf)))) as Hk.
    { apply keeps_for_push; try assumption.
      destruct (rf_fields rf) as [names|] eqn:Hn; simpl.
      - intros name Hin.
        apply responseFormats_get_inv in Hrf as [Hrf|(_ & _ & ->)]; [|discriminate].
        by eapply Hfields.
      - intros name Hin. by apply elem_of_nil in Hin. }
    specialize (Hk issue).
    by destruct (for_push _ _ issue) as [[fs|e] i'].
  - unfold issueResponse. rewrite Hrf. apply R_refl.
Qed.

Lemma formatField_popped h bot name :
  keeps (popped_from (sprintField (jira (config bot)))) (formatField h bot name).
Proof.
  apply formatField_keeps; [apply popped_from_refl|apply popped_from_trans|].
  intros _ _. apply parseSprint_popped.
Qed.

Lemma formatField_reads h bot name i :
  name <> "Sprint" -> snd (formatField h bot name i) = i.
Proof.
  intros Hne. symmetry.
  apply (formatField_keeps h bot eq); [done|congruence|]. by intros ->.
Qed.

(** X20: composing never changes the key of the issue or a field other
    than the configured sprint field, and changes that one only by taking
    elements off the end of its list; with no sprint field configured, or
    no Sprint entry in the format, the issue is returned as it was. *)
Theorem issueResponse_changes_only_the_sprint_list h bot issue format :
  popped_from (sprintField (jira (config bot))) issue
    (snd (issueResponse h bot issue format))
  /\ key (snd (issueResponse h bot issue format)) = key issue
  /\ (forall k, k <> sprintField (jira (config bot)) ->
        fields (snd (issueResponse h bot issue format)) !! k = fields issue !! k)
  /\ (sprintField (jira (config bot)) = ""
      \/ (forall rf names,
            responseFormats (config bot) !! format = Some rf ->
            rf_fields rf = Some names -> "Sprint" ∉ names) ->
      snd (issueResponse h bot issue format) = issue).
Proof.
  assert (popped_from (sprintField (jira (config bot))) issue
            (snd (issueResponse h bot issue format))) as Hpop.
  { apply issueResponse_frame.
    - apply popped_from_refl.
    - apply popped_from_trans.
    - intros rf names name _ _ _. apply formatField_popped. }
  split; [exact Hpop|]. split; [|split].
  - destruct Hpop as [->|(kept & gone & _ & ->)]; reflexivity.
  - intros k Hk. destruct Hpop as [->|(kept & gone & _ & ->)]; [reflexivity|].
    simpl. by rewrite lookup_insert_ne.
  - intros Hno. symmetry.
    apply (issueResponse_frame h bot issue format eq); [done|congruence|].
    intros rf names name Hrf Hnames Hin. apply formatField_keeps; [done|congruence|].
    intros -> Hsf. exfalso. destruct Hno as [Hno|Hno]; [done|].
    by apply (Hno rf names).
Qed.

(** ** The loop over the fields of a format *)

Lemma for_push_throws {A B} (Inv : Issue -> Prop) (body : A -> M B) xs x :
  (forall y i, Inv i -> Inv (snd (body y i))) ->
  x ∈ xs ->
  (forall i, Inv i -> isThrow (fst (body x i)) = true) ->
  forall i, Inv i -> isThrow (fst (for_push body xs i)) = true.
Proof.
  intros Hinv Hx Hthrow. induction xs as [|y xs IH]; intros i Hi.
  - by apply elem_of_nil in Hx.
  - simpl. unfold bind at 1.
    pose proof (Hinv y i Hi) as Hi'.
    destruct (body y i) as [[b|e] i'] eqn:Hb; simpl in *; [|reflexivity].
    apply elem_of_cons in Hx as [->|Hx].
    + specialize (Hthrow i Hi). by rewrite Hb in Hthrow.
    + unfold bind. specialize (IH Hx i' Hi').
      by destruct (for_push body xs i') as [[ys|e] i''].
Qed.

Lemma for_push_ok {A B} (body : A -> M B) xs i ys i' :
  for_push body xs i = (Ok ys, i') ->
  Forall2 (fun x y => exists j j', body x j = (Ok y, j')) xs ys.
Proof.
  revert i ys. induction xs as [|x xs IH]; intros i ys; simpl.
  - intros [= <- <-]. constructor.
  - unfold bind at 1. destruct (body x i) as [[y|e] j] eqn:Hb; [|discriminate].
    unfold bind. destruct (for_push body xs j) as [[ys'|e] j'] eqn:Hr; [|discriminate].
    intros [= <- <-]. constructor; eauto.
Qed.

Lemma for_push_all_ok {A B} (body : A -> M B) (P : A -> B -> Prop) xs i :
  (forall x, x ∈ xs -> exists y, body x i = (Ok y, i) /\ P x y) ->
  exists ys, for_push body xs i = (Ok ys, i) /\ Forall2 P xs ys.
Proof.
  induction xs as [|x xs IH]; intros Hall; simpl.
  - exists []. split; [reflexivity|constructor].
  - destruct (Hall x) as (y & Hy & HP); [by left|].
    destruct IH as (ys & Hys & HF); [intros z Hz; apply Hall; by right|].
    exists (y :: ys). unfold bind. rewrite Hy, Hys. split; [reflexivity|].
    by constructor.
Qed.

Lemma formatField_Sprint_unconfigured h bot i :
  sprintField (jira (config bot)) = "" ->
  isThrow (fst (formatField h bot "Sprint" i)) = true.
Proof.
  intros Hsf. unfold formatField, fieldFormatters. simpl. by rewrite Hsf.
Qed.

Lemma formatField_unresolved h bot name i y j :
  fieldFormatters h bot name = None ->
  customFields (jira (config bot)) = None
  \/ customFields (jira (config bot)) = Some [] ->
  formatField h bot name i = (Ok y, j) -> y = None.
Proof.
  intros Hff Hcf. unfold formatField. rewrite Hff.
  destruct Hcf as [-> | ->]; by intros [= <- _].
Qed.

Lemma issueResponse_throws_in_fields h bot issue format rf :
  responseFormats_get bot format = Some rf ->
  isThrow (fst (for_push (formatField h bot) (default [] (rf_fields rf)) issue)) = true ->
  isThrow (fst (issueResponse h bot issue format)) = true.
Proof.
  intros Hrf Hloop. rewrite (issueResponse_eq _ _ _ _ _ Hrf).
  destruct (render_head h issue rf) as [[[? ?] ?]|]; [|reflexivity].
  by destruct (for_push _ _ issue) as [[fs|e] i'].
Qed.

Lemma issueResponse_Ok_fields h bot issue format rf r issue' :
  responseFormats_get bot format = Some rf ->
  issueResponse h bot issue format = (Ok r, issue') ->
  for_push (formatField h bot) (default [] (rf_fields rf)) issue
  = (Ok (att_fields r), issue').
Proof.
  intros Hrf. rewrite (issueResponse_eq _ _ _ _ _ Hrf).
  destruct (render_head h issue rf) as [[[? ?] ?]|]; [|discriminate].
  destruct (for_push _ _ issue) as [[fs|e] i']; [|discriminate].
  by intros [= <- <-].
Qed.

(** C2 (where the code departs from it): a name of [profile.fields] that
    resolves to nothing is not omitted.  A Sprint entry with no sprint
    field configured makes the whole composition throw, and when an
    attachment is returned its field list has one entry for each declared
    name, the entry of a name that is not built in, with no custom field
    configured, being [null]. *)
Theorem C2_unresolved_field_is_not_omitted h bot issue format rf names :
  responseFormats (config bot) !! format = Some rf ->
  rf_fields rf = Some names ->
  ("Sprint" ∈ names -> sprintField (jira (config bot)) = "" ->
   isThrow (fst (issueResponse h bot issue format)) = true)
  /\ (forall r issue',
        issueResponse h bot issue format = (Ok r, issue') ->
        length (att_fields r) = length names
        /\ forall name,
             name ∈ names -> fieldFormatters h bot name = None ->
             customFields (jira (config bot)) = None
             \/ customFields (jira (config bot)) = Some [] ->
             None ∈ att_fields r).
Proof.
  intros Hrf Hnames. apply responseFormats_get_own in Hrf. split.
  - intros Hin Hsf. apply (issueResponse_throws_in_fields _ _ _ _ _ Hrf).
    rewrite Hnames. simpl.
    apply (for_push_throws (fun _ => True) _ _ "Sprint"); auto.
    intros i _. by apply formatField_Sprint_unconfigured.
  - intros r issue' Hok.
    apply (issueResponse_Ok_fields _ _ _ _ _ _ _ Hrf) in Hok.
    rewrite Hnames in Hok. simpl in Hok. apply for_push_ok in Hok.
    split; [symmetry; by eapply Forall2_length|].
    intros name Hin Hff Hcf.
    apply list_elem_of_lookup in Hin as (n & Hn).
    destruct (Forall2_lookup_l _ _ _ _ _ Hok Hn) as (y & Hy & j & j' & Hb).
    apply (formatField_unresolved _ _ _ _ _ _ Hff Hcf) in Hb. subst y.
    apply list_elem_of_lookup. eauto.
Qed.

Lemma C2_unresolved_field_is_not_omitted_witness :
  isThrow (fst (issueResponse host_sample bot_default issue_PROJ_123 "full")) = true.
Proof.
  apply (C2_unresolved_field_is_not_omitted host_sample bot_default
           issue_PROJ_123 "full"
           {| rf_description := true;
              rf_pretext := Some "`Here is some information on ${issue.key}`";
              rf_title := None;
              rf_hideFooter := false;
              rf_respondInThread := false;
              rf_fields := Some ["Created"; "Updated"; "Status"; "Priority";
                                 "Reporter"; "Assignee"; "Sprint"] |}
           ["Created"; "Updated"; "Status"; "Priority";
            "Reporter"; "Assignee"; "Sprint"]);
    [vm_compute; reflexivity | reflexivity
    | apply list_elem_of_In; simpl; tauto | reflexivity].
Defined.

(** A field that is not built in, with no custom field configured: [null]
    stands between the two entries that resolved. *)
Example issueResponse_points_fields :
  option_map att_fields
    (match fst (issueResponse host_sample bot_sample issue_PROJ_123 "points") with
     | Ok r => Some r
     | Throw _ => None
     end)
  = Some [Some {| title := "Status"; value := JStr "Open"; short := true |};
          None;
          Some {| title := "Priority"; value := JStr "Low"; short := true |}].
Proof. vm_compute. reflexivity. Qed.

Lemma for_push_app {A B} (body : A -> M B) xs ys i fs i' :
  for_push body (xs ++ ys) i = (Ok fs, i') ->
  exists fs1 fs2 j,
    for_push body xs i = (Ok fs1, j)
    /\ for_push body ys j = (Ok fs2, i')
    /\ fs = fs1 ++ fs2.
Proof.
  revert i fs. induction xs as [|x xs IH]; intros i fs; simpl.
  - intros H. exists [], fs, i. auto.
  - unfold bind at 1. destruct (body x i) as [[y|e] j] eqn:Hb; [|discriminate].
    unfold bind at 1.
    destruct (for_push body (xs ++ ys) j) as [[fs'|e] j'] eqn:Hr; [|discriminate].
    unfold ret. intros [= <- <-].
    destruct (IH _ _ Hr) as (fs1 & fs2 & k & H1 & H2 & ->).
    exists (y :: fs1), fs2, k. unfold bind. rewrite Hb, H1. auto.
Qed.

Lemma for_push_reads h bot names i :
  "Sprint" ∉ names -> snd (for_push (formatField h bot) names i) = i.
Proof.
  intros Hno. symmetry.
  apply (keeps_for_push eq); [done|congruence|].
  intros name Hin j. symmetry. apply formatField_reads. set_solver.
Qed.

(** C5 (where the code departs from it): the Sprint formatter does not
    only read the issue.  Whenever a format that lists Sprint is composed
    for an issue whose configured sprint field holds a non-empty list,
    the issue comes back with its sprint list shortened: the last element
    at least is gone from it, and the issue is not the issue that was
    passed in. *)
Theorem C5_Sprint_entry_shortens_the_sprint_list
    h bot issue format rf names l x r issue' :
  responseFormats (config bot) !! format = Some rf ->
  rf_fields rf = Some names ->
  "Sprint" ∈ names ->
  sprintField (jira (config bot)) <> "" ->
  get_field issue (sprintField (jira (config bot))) = JArr (l ++ [x]) ->
  issueResponse h bot issue format = (Ok r, issue') ->
  (exists kept gone,
     l = kept ++ gone
     /\ issue' = set_field issue (sprintField (jira (config bot))) (JArr kept))
  /\ get_field issue' (sprintField (jira (config bot)))
     <> get_field issue (sprintField (jira (config bot)))
  /\ issue' <> issue.
Proof.
  intros Hrf Hnames Hin Hsf Hfield Hok.
  apply responseFormats_get_own in Hrf.
  apply (issueResponse_Ok_fields _ _ _ _ _ _ _ Hrf) in Hok.
  rewrite Hnames in Hok. simpl in Hok.
  apply list_elem_of_split_l in Hin as (pre & post & -> & Hpre).
  apply for_push_app in Hok as (fs1 & fs2 & j & H1 & H2 & _).
  assert (j = issue) as ->.
  { pose proof (for_push_reads h bot pre issue Hpre) as E. by rewrite H1 in E. }
  simpl in H2. unfold bind at 1 in H2.
  assert (snd (formatField h bot "Sprint" issue)
          = set_field issue (sprintField (jira (config bot))) (JArr l)) as Hstep.
  { unfold formatField, fieldFormatters. simpl.
    destruct (String.eqb_spec (sprintField (jira (config bot))) ""); [done|]. simpl.
    unfold bind, parseSprint. rewrite Hfield, pop_snoc.
    destruct x as [| | | |s| | |]; try reflexivity. by destruct (match_name s). }
  destruct (formatField h bot "Sprint" issue) as [[y|e] mid]; [|discriminate].
  simpl in Hstep. subst mid.
  unfold bind at 1 in H2.
  pose proof (keeps_for_push (popped_from (sprintField (jira (config bot))))
                (popped_from_refl _) (popped_from_trans _)
                (formatField h bot) post
                (fun name _ => formatField_popped h bot name)
                (set_field issue (sprintField (jira (config bot))) (JArr l)))
    as Hpop.
  destruct (for_push (formatField h bot) post _) as [[ys|e] last]; [|discriminate].
  injection H2 as _ <-. simpl in Hpop.
  assert (exists kept gone,
            l = kept ++ gone
            /\ last = set_field issue (sprintField (jira (config bot))) (JArr kept))
    as (kept & gone & -> & ->).
  { destruct Hpop as [->|(kept & gone & Hk & ->)].
    - exists l, []. by rewrite app_nil_r.
    - rewrite get_set_field in Hk. injection Hk as ->.
      exists kept, gone. by rewrite set_set_field. }
  assert (get_field (set_field issue (sprintField (jira (config bot))) (JArr kept))
            (sprintField (jira (config bot)))
          <> get_field issue (sprintField (jira (config bot)))) as Hne.
  { rewrite get_set_field, Hfield. intros [= E].
    apply (f_equal length) in E. rewrite !length_app in E. simpl in E. lia. }
  split; [eauto|]. split; [exact Hne|].
  intros E. apply Hne. by rewrite E.
Qed.

Lemma C5_Sprint_entry_shortens_the_sprint_list_witness :
  snd (issueResponse host_sample bot_sample issue_PROJ_123 "full") <> issue_PROJ_123.
Proof.
  destruct (issueResponse host_sample bot_sample issue_PROJ_123 "full")
    as [[r|e] issue'] eqn:Hok; [|vm_compute in Hok; discriminate Hok].
  apply (C5_Sprint_entry_shortens_the_sprint_list host_sample bot_sample
           issue_PROJ_123 "full"
           {| rf_description := true;
              rf_pretext := Some "`Here is some information on ${issue.key}`";
              rf_title := None;
              rf_hideFooter := false;
              rf_respondInThread := false;
              rf_fields := Some ["Created"; "Updated"; "Status"; "Priority";
                                 "Reporter"; "Assignee"; "Sprint"] |}
           ["Created"; "Updated"; "Status"; "Priority";
            "Reporter"; "Assignee"; "Sprint"]
           [JStr "derp,name=Sprint 7,foo"] (JStr "derp,name=Sprint 8,foo")
           r issue');
    [vm_compute; reflexivity | reflexivity
    | apply list_elem_of_In; simpl; tauto | discriminate
    | vm_compute; reflexivity | exact Hok].
Defined.

(** The full format of the sample configuration on the sample issue: the
    issue comes back with the last sprint removed from its list. *)
Example issueResponse_full_shortens_the_sprints :
  snd (issueResponse host_sample bot_sample issue_PROJ_123 "full") <> issue_PROJ_123
  /\ get_field issue_PROJ_123 "customfield_10000"
     = JArr [JStr "derp,name=Sprint 7,foo"; JStr "derp,name=Sprint 8,foo"]
  /\ get_field (snd (issueResponse host_sample bot_sample issue_PROJ_123 "full"))
       "customfield_10000"
     = JArr [JStr "derp,name=Sprint 7,foo"].
Proof.
  split; [|split; vm_compute; reflexivity].
  intros H. apply (f_equal (fun i => get_field i "customfield_10000")) in H.
  vm_compute in H. discriminate H.
Qed.

(** ** Fields the formatters need *)

Lemma popped_from_nullish k i i' f :
  popped_from k i i' ->
  nullish (get_field i f) = true -> nullish (get_field i' f) = true.
Proof.
  intros [->|(kept & gone & Hk & ->)] Hn; [exact Hn|].
  destruct (decide (k = f)) as [->|Hne].
  - rewrite Hk in Hn. discriminate.
  - by rewrite get_set_field_ne.
Qed.

Lemma formatField_dereferences h bot name field i :
  (name, field) ∈ dereferenced ->
  nullish (get_field i field) = true ->
  isThrow (fst (formatField h bot name i)) = true.
Proof.
  intros Hin Hn. unfold dereferenced in Hin.
  repeat (apply elem_of_cons in Hin as [[= -> ->]|Hin]);
    [| | |by apply elem_of_nil in Hin];
    unfold formatField, fieldFormatters, slackOrDisplayName, bind, issue_field, lift;
    simpl;
    match goal with
    | H : nullish (get_field i ?f) = true |- _ =>
        destruct (get_field i f); try discriminate H; reflexivity
    end.
Qed.

Lemma js_prop_ok v k : nullish v = false -> exists w, js_prop v k = Ok w.
Proof. destruct v; simpl; try discriminate; eauto. Qed.

Lemma truthy_not_nullish v : truthy v = true -> nullish v = false.
Proof. by destruct v. Qed.

Lemma slackOrDisplayName_ok bot who i :
  nullish (get_field i who) = false ->
  exists v, slackOrDisplayName bot who i = (Ok v, i).
Proof.
  intros Hn. unfold slackOrDisplayName, bind, issue_field, lift, ret.
  destruct (js_prop_ok _ "name" Hn) as (w & ->).
  destruct (js_prop_ok _ "displayName" Hn) as (d & Hd).
  cbv zeta. destruct (negb _); [eauto|]. rewrite Hd. eauto.
Qed.

Lemma formatField_person_ok h bot name i :
  name ∈ person_fields ->
  (forall field, (name, field) ∈ dereferenced -> nullish (get_field i field) = false) ->
  exists y,
    formatField h bot name i = (Ok y, i)
    /\ exists f, y = Some f /\ title f = name
       /\ (name = "Assignee" -> truthy (get_field i "assignee") = false ->
           value f = JStr "Unassigned").
Proof.
  intros Hin Hd. unfold person_fields in Hin.
  repeat (apply elem_of_cons in Hin as [->|Hin]); [| | | | | |by apply elem_of_nil in Hin].
  - eexists. split; [reflexivity|]. eexists. split; [reflexivity|]. split; [reflexivity|discriminate].
  - eexists. split; [reflexivity|]. eexists. split; [reflexivity|]. split; [reflexivity|discriminate].
  - destruct (js_prop_ok (get_field i "status") "name") as (w & Hw).
    { apply Hd. unfold dereferenced. apply list_elem_of_In. simpl. tauto. }
    unfold formatField, fieldFormatters, bind, issue_field, lift, ret. simpl.
    rewrite Hw. eexists. split; [reflexivity|]. eexists. split; [reflexivity|].
    split; [reflexivity|discriminate].
  - destruct (js_prop_ok (get_field i "priority") "name") as (w & Hw).
    { apply Hd. unfold dereferenced. apply list_elem_of_In. simpl. tauto. }
    unfold formatField, fieldFormatters, bind, issue_field, lift, ret. simpl.
    rewrite Hw. eexists. split; [reflexivity|]. eexists. split; [reflexivity|].
    split; [reflexivity|discriminate].
  - destruct (slackOrDisplayName_ok bot "reporter" i) as (v & Hv).
    { apply Hd. unfold dereferenced. apply list_elem_of_In. simpl. tauto. }
    unfold formatField, fieldFormatters, bind, ret. simpl.
    rewrite Hv. eexists. split; [reflexivity|]. eexists. split; [reflexivity|].
    split; [reflexivity|discriminate].
  - unfold formatField, fieldFormatters, bind, issue_field, ret. simpl.
    destruct (truthy (get_field i "assignee")) eqn:Ht.
    + destruct (slackOrDisplayName_ok bot "assignee" i) as (v & Hv);
        [by apply truthy_not_nullish|].
      unfold bind. rewrite Hv. eexists. split; [reflexivity|].
      eexists. split; [reflexivity|]. split; [reflexivity|discriminate].
    + eexists. split; [reflexivity|]. eexists. split; [reflexivity|].
      split; reflexivity.
Qed.

Lemma person_fields_not_Sprint name : name ∈ person_fields -> name <> "Sprint".
Proof.
  unfold person_fields. intros Hin ->.
  repeat (apply elem_of_cons in Hin as [Hin|Hin]; [discriminate Hin|]).
  by apply elem_of_nil in Hin.
Qed.

(** A field on people and metadata throws exactly when it reads a property
    of a field the issue does not carry. *)
Lemma formatField_person_throws_iff h bot name i :
  name ∈ person_fields ->
  isThrow (fst (formatField h bot name i)) = true
  <-> exists field,
        (name, field) ∈ dereferenced /\ nullish (get_field i field) = true.
Proof.
  intros Hin. split.
  - intros Hthrow.
    destruct (decide (Exists (fun p => fst p = name
                                       /\ nullish (get_field i (snd p)) = true)
                        dereferenced)) as [Hex|Hno].
    { apply Exists_exists in Hex as ([n field] & Hd & Hn & Hnull).
      simpl in Hn, Hnull. subst n. eauto. }
    destruct (formatField_person_ok h bot name i Hin) as (y & Hy & _).
    + intros field Hd. destruct (nullish (get_field i field)) eqn:E; [|done].
      exfalso. apply Hno. apply Exists_exists. exists (name, field). auto.
    + rewrite Hy in Hthrow. discriminate.
  - intros (field & Hd & Hn). by eapply formatField_dereferences.
Qed.

Lemma for_push_person_throws_iff h bot names i :
  (forall name, name ∈ names -> name ∈ person_fields) ->
  isThrow (fst (for_push (formatField h bot) names i)) = true
  <-> exists name field,
        name ∈ names /\ (name, field) ∈ dereferenced
        /\ nullish (get_field i field) = true.
Proof.
  induction names as [|x xs IH]; intros Hsix; simpl.
  - split; [discriminate|]. intros (name & _ & Hin & _). by apply elem_of_nil in Hin.
  - pose proof (formatField_reads h bot x i
                  (person_fields_not_Sprint x (Hsix x ltac:(by left)))) as Hsnd.
    pose proof (formatField_person_throws_iff h bot x i (Hsix x ltac:(by left)))
      as Hx.
    unfold bind at 1.
    destruct (formatField h bot x i) as [[y|e] j]; simpl in Hsnd, Hx; subst j.
    + unfold bind, ret.
      assert (isThrow (fst (for_push (formatField h bot) xs i)) = true
              <-> exists name field,
                    name ∈ xs /\ (name, field) ∈ dereferenced
                    /\ nullish (get_field i field) = true) as IH'
        by (apply IH; intros name Hn; apply Hsix; by right).
      destruct (for_push (formatField h bot) xs i) as [[ys|e] j]; simpl in *.
      * split; [discriminate|]. intros (name & field & Hn & Hd & Hnull).
        apply elem_of_cons in Hn as [->|Hn].
        -- apply Hx. eauto.
        -- apply IH'. eauto.
      * split; [|done]. intros _.
        destruct (proj1 IH' eq_refl) as (name & field & Hn & Hd & Hnull).
        exists name, field. split; [by right|done].
    + simpl. split; [|done]. intros _.
      destruct (proj1 Hx eq_refl) as (field & Hd & Hnull).
      exists x, field. split; [by left|done].
Qed.

(** C10 (as amended): for a profile listing fields on people and metadata,
    composition throws when the issue lacks the field a listed Status,
    Priority or Reporter entry reads; these three are the only ones to
    read a property of their field: a field on people and metadata throws
    exactly when it is one of them and the issue lacks its field, and so
    does the loop over a list of such fields.  Assignee gives "Unassigned"
    for an absent assignee, and Created and Updated pass their field to
    the date library, carried or not. *)
Theorem C10_fields_the_formatters_need h bot issue format rf names :
  responseFormats (config bot) !! format = Some rf ->
  rf_fields rf = Some names ->
  (forall name field,
     (name, field) ∈ dereferenced -> name ∈ names ->
     nullish (get_field issue field) = true ->
     isThrow (fst (issueResponse h bot issue format)) = true)
  /\ (forall name i,
        name ∈ person_fields ->
        (isThrow (fst (formatField h bot name i)) = true
         <-> exists field,
               (name, field) ∈ dereferenced /\ nullish (get_field i field) = true)
        /\ snd (formatField h bot name i) = i)
  /\ (forall i,
        truthy (get_field i "assignee") = false ->
        formatField h bot "Assignee" i
        = (Ok (Some {| title := "Assignee"; value := JStr "Unassigned";
                       short := true |}), i))
  /\ (forall i,
        formatField h bot "Created" i
        = (Ok (Some {| title := "Created";
                       value := JStr (moment_calendar h (get_field i "created"));
                       short := true |}), i)
        /\ formatField h bot "Updated" i
           = (Ok (Some {| title := "Updated";
                          value := JStr (moment_calendar h (get_field i "updated"));
                          short := true |}), i))
  /\ ((forall name, name ∈ names -> name ∈ person_fields) ->
      (isThrow (fst (for_push (formatField h bot) names issue)) = true
       <-> exists name field,
             name ∈ names /\ (name, field) ∈ dereferenced
             /\ nullish (get_field issue field) = true)).
Proof.
  intros Hrf Hnames. apply responseFormats_get_own in Hrf.
  split; [|split; [|split; [|split]]].
  - intros name field Hd Hin Hnull.
    apply (issueResponse_throws_in_fields _ _ _ _ _ Hrf).
    rewrite Hnames. simpl.
    apply (for_push_throws (fun i => nullish (get_field i field) = true) _ _ name);
      [|exact Hin| |exact Hnull].
    + intros y i Hi.
      apply (popped_from_nullish (sprintField (jira (config bot))) i); [|exact Hi].
      apply formatField_popped.
    + intros i Hi. by apply (formatField_dereferences h bot name field).
  - intros name i Hin. split.
    + by apply formatField_person_throws_iff.
    + apply formatField_reads. by apply person_fields_not_Sprint.
  - intros i Ha. unfold formatField, fieldFormatters, bind, issue_field, ret.
    simpl. by rewrite Ha.
  - intros i. split; reflexivity.
  - apply for_push_person_throws_iff.
Qed.

Lemma C10_fields_the_formatters_need_witness :
  isThrow (fst (issueResponse host_sample bot_sample
                  (set_field issue_AB_7 "status" JNull) "people")) = true.
Proof.
  apply (proj1 (C10_fields_the_formatters_need host_sample bot_sample
                  (set_field issue_AB_7 "status" JNull) "people"
                  {| rf_description := true;
                     rf_pretext := None;
                     rf_title := None;
                     rf_hideFooter := true;
                     rf_respondInThread := false;
                     rf_fields := Some person_fields |}
                  person_fields ltac:(vm_compute; reflexivity) eq_refl)
           "Status" "status");
    [apply list_elem_of_In; simpl; tauto
    | apply list_elem_of_In; simpl; tauto
    | vm_compute; reflexivity].
Defined.

(** C10 as the specification words it fails: an issue that carries neither
    [created] nor [updated] nor an assignee is composed all the same, the
    Created and Updated entries included. *)
Lemma C10_counterexample :
  get_field issue_AB_7 "created" = JUndefined
  /\ get_field issue_AB_7 "updated" = JUndefined
  /\ exists r,
       fst (issueResponse host_sample bot_sample issue_AB_7 "people") = Ok r
       /\ map (option_map title) (att_fields r)
          = [Some "Created"; Some "Updated"; Some "Status"; Some "Priority";
             Some "Reporter"; Some "Assignee"].
Proof.
  split; [vm_compute; reflexivity|]. split; [vm_compute; reflexivity|].
  eexists. split; vm_compute; reflexivity.
Qed.

(** ** The dispatcher *)

Lemma respondTo_buffer h bot buf message issueId :
  respondTo h (set_ticketBuffer bot buf) message issueId
  = respondTo h bot message issueId.
Proof. reflexivity. Qed.

Lemma render_head_throws h issue rf src e :
  rf_pretext rf = Some src \/ rf_title rf = Some src ->
  src <> "" ->
  js_eval h src issue = Throw e ->
  exists e', render_head h issue rf = Throw e'.
Proof.
  intros Hcfg Hsrc Hev. unfold render_head.
  destruct (rf_description rf);
    [destruct (formatIssueDescription h (get_field issue "description"));
     [|eauto]|].
  all: destruct Hcfg as [-> | Htitle].
  all: try (destruct (String.eqb_spec src ""); [done|]; rewrite Hev; eauto).
  all: destruct (rf_pretext rf) as [p|];
    [destruct (String.eqb p ""); [|destruct (js_eval h p issue); [|eauto]]|].
  all: rewrite Htitle; destruct (String.eqb_spec src ""); [done|];
    rewrite Hev; eauto.
Qed.

(** [handleMessage] on a message it answers, in terms of [parseTickets]. *)
Lemma handleMessage_ambient h bot message text now :
  m_type message = JStr "ambient" ->
  m_text message = JStr text ->
  text <> "" ->
  handleMessage h bot message now
  = match parseTickets bot (m_channel message) (JStr text) now with
    | (Ok found, bot') =>
        (Ok (match found with
             | [] => []
             | _ :: _ =>
                 LogDetected found
                 :: concat (map (respondTo h bot' message) found)
             end), bot')
    | (Throw e, bot') => (Throw e, bot')
    end.
Proof.
  intros Htype Htext Hne. unfold handleMessage. rewrite Htype, Htext. simpl.
  destruct (String.eqb_spec text ""); [done|]. simpl.
  destruct (parseTickets bot (m_channel message) (JStr text) now)
    as [[found|e] bot']; [|reflexivity].
  by destruct found.
Qed.

(** On a text whose matches are plain tickets [parseTickets] returns. *)
Lemma parseTickets_plain bot channel text now :
  Forall plain_ticket (allMatches (ticketRegExp bot) text) ->
  exists found, fst (parseTickets bot channel (JStr text) now) = Ok found.
Proof.
  intros Hplain.
  destruct (truthy channel) eqn:Hc;
    [|unfold parseTickets; rewrite Hc; simpl; eauto].
  destruct (String.eqb_spec text "") as [->|Hne];
    [unfold parseTickets; rewrite Hc; simpl; eauto|].
  rewrite (parseTickets_found _ _ _ _ Hc Hne).
  destruct (forEach_filter channel now (TICKET_BUFFER_LENGTH bot) (ticketBuffer bot)
              (allMatches (ticketRegExp bot) text)
              {| retVal := []; uniques := ∅; buffer := ticketBuffer bot |}
              Hplain ltac:(simpl; set_solver) ltac:(done)) as [Hnone _].
  destruct (forEach _ _ _) as [[e|] st]; [discriminate|]. simpl. eauto.
Qed.

(** C4 (as amended): a template that throws does not make [handleMessage]
    throw.  What [handleMessage] does on a message it answers is what the
    extraction does followed, if that returns, by the answers to the
    tickets found, one by one, each on its own, and the extraction returns
    whenever no match is the name of the method the extraction calls on
    its record of seen tickets; for a ticket whose issue makes the pretext
    or the title template throw, the format chosen and the error are logged
    and nothing is sent: no attachment is built, with or without the
    summary as title. *)
Theorem C4_template_failure_drops_the_notification h bot message text now :
  m_type message = JStr "ambient" ->
  m_text message = JStr text ->
  text <> "" ->
  exists outcome bot',
    parseTickets bot (m_channel message) (JStr text) now = (outcome, bot')
    /\ handleMessage h bot message now
       = (match outcome with
          | Ok found =>
              Ok (match found with
                  | [] => []
                  | _ :: _ =>
                      LogDetected found
                      :: concat (map (respondTo h bot' message) found)
                  end)
          | Throw e => Throw e
          end, bot')
    /\ (Forall plain_ticket (allMatches (ticketRegExp bot) text) ->
        exists found, outcome = Ok found)
    /\ forall issueId issue rf src e,
         jira_findIssue h issueId = Ok issue ->
         responseFormats (config bot) !! selectedResponseFormat bot message
         = Some rf ->
         rf_pretext rf = Some src \/ rf_title rf = Some src ->
         src <> "" ->
         js_eval h src issue = Throw e ->
         exists e',
           respondTo h bot' message issueId
           = [LogFormat (m_channel message) (selectedResponseFormat bot message);
              LogFindError issueId e'].
Proof.
  intros Htype Htext Hne.
  pose proof (handleMessage_ambient h bot message text now Htype Htext Hne) as Hh.
  pose proof (parseTickets_records bot (m_channel message) (JStr text) now)
    as (r & Hsnd & _).
  pose proof (parseTickets_plain bot (m_channel message) text now) as Hplain.
  destruct (parseTickets bot (m_channel message) (JStr text) now)
    as [outcome bot'].
  simpl in Hsnd, Hplain. subst bot'.
  eexists _, _. split; [reflexivity|]. split; [|split].
  - rewrite Hh. by destruct outcome.
  - exact Hplain.
  - intros issueId issue rf src e Hfind Hrf Hcfg Hsrc Hev.
    rewrite respondTo_buffer. unfold respondTo. rewrite Hfind.
    rewrite (issueResponse_eq _ _ _ _ _ (responseFormats_get_own _ _ _ Hrf)).
    destruct (render_head_throws h issue rf src e Hcfg Hsrc Hev) as (e' & ->).
    simpl. eauto.
Qed.

Lemma C4_template_failure_drops_the_notification_witness :
  exists e',
    respondTo host_sample
      (snd (parseTickets bot_sample (JStr "C3") (JStr "see PROJ-123") t0))
      (ambient "C3" "see PROJ-123") "PROJ-123"
    = [LogFormat (JStr "C3") "broken"; LogFindError "PROJ-123" e'].
Proof.
  destruct (C4_template_failure_drops_the_notification host_sample bot_sample
              (ambient "C3" "see PROJ-123") "see PROJ-123" t0
              eq_refl eq_refl ltac:(discriminate))
    as (outcome & bot' & Hp & _ & _ & Hdrop).
  destruct (Hdrop "PROJ-123" issue_PROJ_123
              {| rf_description := false;
                 rf_pretext := Some "`Here is some information on ${issue.key";
                 rf_title := None;
                 rf_hideFooter := true;
                 rf_respondInThread := false;
                 rf_fields := None |}
              "`Here is some information on ${issue.key"
              (SyntaxError "Unterminated template literal")
              ltac:(vm_compute; reflexivity) ltac:(vm_compute; reflexivity)
              ltac:(left; reflexivity) ltac:(discriminate)
              ltac:(vm_compute; reflexivity)) as (e' & He').
  exists e'. simpl in Hp. rewrite Hp. simpl. exact He'.
Defined.

(** C4 as the specification words it fails: the template of the format of
    channel C3 throws, and what [handleMessage] does for the ticket is to
    log; it sends no attachment, so none with the summary as title. *)
Lemma C4_counterexample :
  js_eval host_sample "`Here is some information on ${issue.key" issue_PROJ_123
  = Throw (SyntaxError "Unterminated template literal")
  /\ fst (handleMessage host_sample bot_sample (ambient "C3" "see PROJ-123") t0)
     = Ok [LogDetected ["PROJ-123"];
           LogFormat (JStr "C3") "broken";
           LogFindError "PROJ-123" (SyntaxError "Unterminated template literal")]
  /\ ~ (exists acts r,
          fst (handleMessage host_sample bot_sample (ambient "C3" "see PROJ-123") t0)
          = Ok acts
          /\ (In (Reply [r]) acts \/ In (ReplyInThread [r]) acts)
          /\ att_title r = get_field issue_PROJ_123 "summary").
Proof.
  split; [vm_compute; reflexivity|]. split; [vm_compute; reflexivity|].
  intros (acts & r & Hacts & Hin & _).
  vm_compute in Hacts. injection Hacts as <-.
  simpl in Hin. destruct Hin as [[H|[H|[H|[]]]]|[H|[H|[H|[]]]]]; discriminate H.
Qed.


Lemma handleMessage_actions h bot message now acts bot' a :
  handleMessage h bot message now = (Ok acts, bot') ->
  a ∈ acts ->
  a = LogCouldNotRespond
  \/ (exists found, a = LogDetected found)
  \/ exists issueId, a ∈ respondTo h bot message issueId.
Proof.
  unfold handleMessage.
  destruct (strict_eq_str (m_type message) "ambient" && truthy (m_text message)).
  - pose proof (parseTickets_records bot (m_channel message) (m_text message) now)
      as (r & Hsnd & _).
    destruct (parseTickets bot (m_channel message) (m_text message) now)
      as [[found|e] bot1]; [|discriminate].
    simpl in Hsnd. subst bot1.
    destruct found as [|k found]; intros [= <- <-] Ha.
    + by apply elem_of_nil in Ha.
    + apply elem_of_cons in Ha as [->|Ha]; [right; left; eauto|].
      right. right.
      change (a ∈ concat (map (respondTo h (set_ticketBuffer bot
                (record_all (m_channel message) now r (ticketBuffer bot)))
                message) (k :: found))) in Ha.
      apply list_elem_of_In, in_concat in Ha as (l & Hl & Ha).
      apply in_map_iff in Hl as (issueId & <- & _).
      exists issueId. rewrite respondTo_buffer in Ha. by apply list_elem_of_In.
  - intros [= <- <-] Ha. left.
    apply elem_of_cons in Ha as [->|Ha]; [reflexivity|by apply elem_of_nil in Ha].
Qed.

Lemma strict_eq_str_true v lit : strict_eq_str v lit = true <-> v = JStr lit.
Proof.
  destruct v; simpl; try (split; [discriminate|intros [=]]).
  destruct (String.eqb_spec s lit); split; congruence.
Qed.





(** The scenario of the specification: the identifier is found once in a
    text that repeats it, not at all in the same text five minutes later,
    and once again after that. *)
Example parseTickets_scenario :
  let text := JStr "see PROJ-123 and PROJ-123 again" in
  let bot1 := snd (parseTickets bot_default C1 text t0) in
  let bot2 := snd (parseTickets bot1 C1 text (t0 + 300000)) in
  fst (parseTickets bot_default C1 text t0) = Ok ["PROJ-123"]
  /\ fst (parseTickets bot1 C1 text (t0 + 300000)) = Ok []
  /\ fst (parseTickets bot2 C1 text (t0 + 300001)) = Ok ["PROJ-123"].
Proof. vm_compute. repeat split; reflexivity. Qed.

(** * Further properties of the code *)

(** ** parseTickets on any buffer *)

Lemma parseTickets_fst bot channel text now :
  truthy channel = true -> text <> "" ->
  Forall plain_ticket (allMatches (ticketRegExp bot) text) ->
  fst (parseTickets bot channel (JStr text) now)
  = Ok (firstOccurrences ∅
          (filter (fun k => notSuppressed (ticketBuffer bot) channel now
                              (TICKET_BUFFER_LENGTH bot) k = true)
                  (allMatches (ticketRegExp bot) text))).
Proof.
  intros Hc Ht Hplain.
  rewrite (parseTickets_found _ _ _ _ Hc Ht).
  destruct (forEach_filter channel now (TICKET_BUFFER_LENGTH bot) (ticketBuffer bot)
              (allMatches (ticketRegExp bot) text)
              {| retVal := []; uniques := ∅; buffer := ticketBuffer bot |}
              Hplain ltac:(simpl; set_solver) ltac:(done)) as [Hnone Hret].
  destruct (forEach _ _ _) as [[e|] st]; [discriminate|]. simpl in *.
  by rewrite Hret.
Qed.

(** X1: whatever the buffer holds, [parseTickets] on a text whose matches
    are plain tickets (none is [hasOwnProperty] or [__proto__], which the
    object that records the tickets seen does not take as the others)
    returns the matches the buffer does not hold back, each once, in order
    of first appearance: a match is returned exactly when no response to
    it in this channel is recorded within the last
    [TICKET_BUFFER_LENGTH]. *)
Theorem parseTickets_returns_the_unsuppressed bot channel text now :
  truthy channel = true -> text <> "" ->
  Forall plain_ticket (allMatches (ticketRegExp bot) text) ->
  exists r,
    fst (parseTickets bot channel (JStr text) now) = Ok r
    /\ r = firstOccurrences ∅
             (filter (fun k => notSuppressed (ticketBuffer bot) channel now
                                 (TICKET_BUFFER_LENGTH bot) k = true)
                     (allMatches (ticketRegExp bot) text))
    /\ NoDup r
    /\ sublist r (allMatches (ticketRegExp bot) text)
    /\ (forall k,
          k ∈ r <->
          k ∈ allMatches (ticketRegExp bot) text
          /\ TICKET_BUFFER_LENGTH bot
             < now - get_or_0 (ticketBuffer bot) (hashTicket channel k)).
Proof.
  intros Hc Ht Hplain. eexists. split; [by apply parseTickets_fst|].
  split; [reflexivity|]. split; [apply NoDup_firstOccurrences|]. split.
  - etrans; [apply firstOccurrences_sublist|]. apply sublist_filter.
  - intros k. rewrite elem_of_firstOccurrences, list_elem_of_filter.
    unfold notSuppressed. rewrite Z.ltb_lt. set_solver.
Qed.

Lemma plain_tickets_dec (l : list string) :
  forallb (fun k => negb (String.eqb k "hasOwnProperty")
                    && negb (String.eqb k "__proto__")) l = true ->
  Forall plain_ticket l.
Proof.
  intros H. apply Forall_forall. intros k Hk.
  rewrite forallb_forall in H. apply list_elem_of_In in Hk.
  specialize (H k Hk). apply andb_true_iff in H as [H1 H2].
  apply negb_true_iff in H1, H2.
  split; intros ->; by rewrite String.eqb_refl in *.
Qed.

Lemma parseTickets_returns_the_unsuppressed_witness :
  exists r,
    fst (parseTickets bot_busy C1 (JStr "OLD-1, NEW-2, AB-7 and OLD-1") t0) = Ok r
    /\ r = ["OLD-1"; "AB-7"].
Proof.
  destruct (parseTickets_returns_the_unsuppressed bot_busy C1
              "OLD-1, NEW-2, AB-7 and OLD-1" t0 eq_refl ltac:(discriminate)
              ltac:(apply plain_tickets_dec; vm_compute; reflexivity))
    as (r & Hr & Hspec & _).
  exists r. split; [exact Hr|]. rewrite Hspec. vm_compute. reflexivity.
Defined.

Lemma get_or_0_recorded buf t h : get_or_0 (<[h := t]> buf) h = t.
Proof.
  unfold get_or_0. rewrite lookup_insert_eq. destruct (Z.eqb_spec t 0); congruence.
Qed.

Lemma parseTickets_again bot channel text now delta :
  truthy channel = true -> text <> "" ->
  Forall plain_ticket (allMatches (ticketRegExp bot) text) ->
  TICKET_BUFFER_LENGTH bot < now ->
  (forall k, k ∈ allMatches (ticketRegExp bot) text ->
             ticketBuffer bot !! hashTicket channel k = None) ->
  let bot1 := snd (parseTickets bot channel (JStr text) now) in
  fst (parseTickets bot channel (JStr text) now)
  = Ok (firstOccurrences ∅ (allMatches (ticketRegExp bot) text))
  /\ (delta <= TICKET_BUFFER_LENGTH bot ->
      parseTickets bot1 channel (JStr text) (now + delta) = (Ok [], bot1))
  /\ (TICKET_BUFFER_LENGTH bot < delta ->
      fst (parseTickets bot1 channel (JStr text) (now + delta))
      = Ok (firstOccurrences ∅ (allMatches (ticketRegExp bot) text))).
Proof.
  intros Hc Ht Hplain Hnow Hfresh bot1.
  assert (fst (parseTickets bot channel (JStr text) now)
          = Ok (firstOccurrences ∅ (allMatches (ticketRegExp bot) text))) as Hfirst.
  { rewrite parseTickets_fst by done. rewrite filter_all; [done|].
    intros k Hk. unfold notSuppressed, get_or_0. rewrite Hfresh by done.
    apply Z.ltb_lt. lia. }
  split; [exact Hfirst|].
  assert (forall k, k ∈ allMatches (ticketRegExp bot) text ->
                    get_or_0 (ticketBuffer bot1) (hashTicket channel k) = now) as Hrec.
  { intros k Hk. unfold bot1. rewrite (parseTickets_snd _ _ _ _ _ Hfirst). simpl.
    unfold get_or_0. rewrite record_all_lookup_in.
    - destruct (Z.eqb_spec now 0); congruence.
    - apply elem_of_firstOccurrences. set_solver. }
  assert (ticketRegExp bot1 = ticketRegExp bot
          /\ TICKET_BUFFER_LENGTH bot1 = TICKET_BUFFER_LENGTH bot) as [Hre Hlen].
  { unfold bot1. by rewrite (parseTickets_snd _ _ _ _ _ Hfirst). }
  split; intros Hd.
  - assert (fst (parseTickets bot1 channel (JStr text) (now + delta)) = Ok []) as Hnone.
    { rewrite parseTickets_fst by (try done; by rewrite Hre).
      rewrite filter_none; [done|].
      rewrite Hre, Hlen. intros k Hk. unfold notSuppressed. rewrite Hrec by done.
      intros Hlt. apply Z.ltb_lt in Hlt. lia. }
    pose proof (parseTickets_snd _ _ _ _ _ Hnone) as Hsnd. simpl in Hsnd.
    rewrite set_ticketBuffer_same in Hsnd.
    destruct (parseTickets bot1 channel (JStr text) (now + delta)). simpl in *.
    congruence.
  - rewrite parseTickets_fst by (try done; by rewrite Hre).
    rewrite Hre, Hlen. rewrite filter_all; [done|].
    intros k Hk. unfold notSuppressed. rewrite Hrec by done.
    apply Z.ltb_lt. lia.
Qed.

(** X2: when a text whose matches are plain tickets with no buffer entry
    is parsed, the same text parsed again up to [TICKET_BUFFER_LENGTH]
    later gives nothing and leaves the bot as it is; later than that it
    gives the same tickets again. *)
Theorem parseTickets_repeated_text bot channel text now delta :
  truthy channel = true -> text <> "" ->
  Forall plain_ticket (allMatches (ticketRegExp bot) text) ->
  TICKET_BUFFER_LENGTH bot < now ->
  (forall k, k ∈ allMatches (ticketRegExp bot) text ->
             ticketBuffer bot !! hashTicket channel k = None) ->
  let bot1 := snd (parseTickets bot channel (JStr text) now) in
  fst (parseTickets bot channel (JStr text) now)
  = Ok (firstOccurrences ∅ (allMatches (ticketRegExp bot) text))
  /\ (delta <= TICKET_BUFFER_LENGTH bot ->
      parseTickets bot1 channel (JStr text) (now + delta) = (Ok [], bot1))
  /\ (TICKET_BUFFER_LENGTH bot < delta ->
      fst (parseTickets bot1 channel (JStr text) (now + delta))
      = Ok (firstOccurrences ∅ (allMatches (ticketRegExp bot) text))).
Proof. apply parseTickets_again. Qed.

Lemma parseTickets_repeated_text_witness :
  let text := "see PROJ-123 and AB-7, PROJ-123 again" in
  let bot1 := snd (parseTickets bot_default C1 (JStr text) t0) in
  parseTickets bot1 C1 (JStr text) (t0 + 300000) = (Ok [], bot1).
Proof.
  intros text bot1.
  apply (parseTickets_repeated_text bot_default C1 text t0 300000);
    [reflexivity | discriminate
    | apply plain_tickets_dec; vm_compute; reflexivity
    | vm_compute; reflexivity
    | intros k _; reflexivity | vm_compute; discriminate].
Defined.

(** ** hashTicket *)

Lemma app_assoc_str (a b c : string) : (a +:+ b) +:+ c = a +:+ (b +:+ c).
Proof.
  induction a as [|x a IH]; str_simpl; [reflexivity|]. by rewrite IH.
Qed.

(** X3: the hash does not tell where the channel ends and the ticket
    starts: a ticket [y] in a channel named [c-x] has the hash of a ticket
    [x-y] in channel [c], so the buffer holds back the one exactly when it
    holds back the other. *)
Theorem hashTicket_joins_channel_and_ticket (c x y : string) :
  hashTicket (JStr (c +:+ "-" +:+ x)) y = hashTicket (JStr c) (x +:+ "-" +:+ y)
  /\ forall buf now len,
       notSuppressed buf (JStr (c +:+ "-" +:+ x)) now len y
       = notSuppressed buf (JStr c) now len (x +:+ "-" +:+ y).
Proof.
  assert (hashTicket (JStr (c +:+ "-" +:+ x)) y
          = hashTicket (JStr c) (x +:+ "-" +:+ y)) as E.
  { unfold hashTicket. simpl. by rewrite !app_assoc_str. }
  split; [exact E|]. intros buf now len. unfold notSuppressed. by rewrite E.
Qed.

(** ** cleanupTicketBuffer *)
(** ** cleanupTicketBuffer *)

Lemma cleanup_lookup bot now h t :
  ticketBuffer (cleanupTicketBuffer bot now) !! h = Some t
  <-> ticketBuffer bot !! h = Some t /\ now - t <= TICKET_BUFFER_LENGTH bot.
Proof.
  unfold cleanupTicketBuffer. simpl. rewrite map_lookup_filter_Some. simpl.
  rewrite negb_true_iff, Z.ltb_ge. reflexivity.
Qed.

Lemma cleanup_lookup_None bot now h :
  ticketBuffer (cleanupTicketBuffer bot now) !! h = None
  <-> ticketBuffer bot !! h = None
      \/ exists t, ticketBuffer bot !! h = Some t
                   /\ TICKET_BUFFER_LENGTH bot < now - t.
Proof.
  split.
  - intros Hnone. destruct (ticketBuffer bot !! h) as [t|] eqn:Hb; [|by left].
    right. exists t. split; [reflexivity|].
    destruct (Z.lt_ge_cases (TICKET_BUFFER_LENGTH bot) (now - t)) as [?|Hle]; [done|].
    assert (ticketBuffer (cleanupTicketBuffer bot now) !! h = Some t) as E
      by (apply cleanup_lookup; split; [done|lia]).
    congruence.
  - intros Hb.
    destruct (ticketBuffer (cleanupTicketBuffer bot now) !! h) as [t|] eqn:Hc;
      [|reflexivity].
    apply cleanup_lookup in Hc as [Hc Hle].
    destruct Hb as [Hb|(t' & Hb & Hlt)]; [congruence|].
    assert (t' = t) by congruence. subst. lia.
Qed.

(** X4: the sweep removes the entries older than [TICKET_BUFFER_LENGTH] and
    no other: an entry is in the buffer afterwards exactly when it was
    there before and is at most that old; the rest of the bot is
    untouched. *)
Theorem cleanupTicketBuffer_removes_the_expired bot now :
  (forall h t,
     ticketBuffer (cleanupTicketBuffer bot now) !! h = Some t
     <-> ticketBuffer bot !! h = Some t /\ now - t <= TICKET_BUFFER_LENGTH bot)
  /\ (forall h,
        ticketBuffer (cleanupTicketBuffer bot now) !! h = None
        <-> ticketBuffer bot !! h = None
            \/ exists t, ticketBuffer bot !! h = Some t
                         /\ TICKET_BUFFER_LENGTH bot < now - t)
  /\ cleanupTicketBuffer bot now
     = set_ticketBuffer bot (ticketBuffer (cleanupTicketBuffer bot now)).
Proof.
  split; [intros h t; apply cleanup_lookup|].
  split; [intros h; apply cleanup_lookup_None|reflexivity].
Qed.

Lemma notSuppressed_cleanup bot sweep channel now k :
  (forall h t, ticketBuffer bot !! h = Some t -> 0 <= t) ->
  sweep <= now ->
  notSuppressed (ticketBuffer (cleanupTicketBuffer bot sweep)) channel now
    (TICKET_BUFFER_LENGTH bot) k
  = notSuppressed (ticketBuffer bot) channel now (TICKET_BUFFER_LENGTH bot) k.
Proof.
  intros Hpos Hsweep. unfold notSuppressed, get_or_0.
  destruct (ticketBuffer (cleanupTicketBuffer bot sweep) !! hashTicket channel k)
    as [t|] eqn:Hc.
  - apply cleanup_lookup in Hc as [-> _]. reflexivity.
  - apply cleanup_lookup_None in Hc as [-> | (t & Hb & Hlt)]; [reflexivity|].
    rewrite Hb. pose proof (Hpos _ _ Hb).
    destruct (Z.eqb_spec t 0); [reflexivity|].
    transitivity true; [apply Z.ltb_lt; lia|symmetry; apply Z.ltb_lt; lia].
Qed.

(** The loop of [parseTickets] asks the buffer one thing, whether it holds
    a ticket back: from two buffers that answer alike it gathers the same
    tickets and ends in the same way. *)
Lemma forEach_same_answers channel now len l st1 st2 :
  retVal st1 = retVal st2 ->
  uniques st1 = uniques st2 ->
  (forall k, notSuppressed (buffer st1) channel now len k
             = notSuppressed (buffer st2) channel now len k) ->
  fst (forEach (parseTickets_each channel now len) l st1)
  = fst (forEach (parseTickets_each channel now len) l st2)
  /\ retVal (snd (forEach (parseTickets_each channel now len) l st1))
     = retVal (snd (forEach (parseTickets_each channel now len) l st2)).
Proof.
  revert st1 st2. induction l as [|x l IH]; intros st1 st2 Hr Hu Hb; simpl.
  - done.
  - unfold parseTickets_each at 1 3 5 7. rewrite <- Hu.
    destruct (uniques_hasOwnProperty (uniques st1) x) as [has|e]; [|done].
    pose proof (Hb x) as Hx. unfold notSuppressed in Hx. rewrite <- Hx.
    destruct (negb has && (len <? now - get_or_0 (buffer st1) (hashTicket channel x)));
      [|by apply IH].
    apply IH; simpl; [by rewrite Hr|by rewrite Hu|].
    intros k. unfold notSuppressed, get_or_0.
    destruct (decide (hashTicket channel x = hashTicket channel k)) as [E|E].
    + by rewrite E, !lookup_insert_eq.
    + rewrite !lookup_insert_ne by done. apply Hb.
Qed.

(** X5: the sweep is not needed for what [parseTickets] returns.  With the
    times in the buffer not negative, a sweep at any earlier moment leaves
    the result of [parseTickets] what it is without the sweep. *)
Theorem cleanupTicketBuffer_does_not_change_parseTickets
    bot sweep channel message now :
  (forall h t, ticketBuffer bot !! h = Some t -> 0 <= t) ->
  sweep <= now ->
  fst (parseTickets (cleanupTicketBuffer bot sweep) channel message now)
  = fst (parseTickets bot channel message now).
Proof.
  intros Hpos Hsweep.
  destruct (truthy channel) eqn:Hc;
    [|unfold parseTickets; by rewrite Hc].
  destruct message as [| | | |text| | |];
    try (unfold parseTickets; simpl; by destruct (negb (truthy channel) || _)).
  destruct (String.eqb_spec text "") as [->|Ht].
  { unfold parseTickets. simpl. by rewrite orb_true_r. }
  rewrite !parseTickets_found by done.
  destruct (forEach_same_answers channel now (TICKET_BUFFER_LENGTH bot)
              (allMatches (ticketRegExp bot) text)
              {| retVal := []; uniques := ∅;
                 buffer := ticketBuffer (cleanupTicketBuffer bot sweep) |}
              {| retVal := []; uniques := ∅; buffer := ticketBuffer bot |}
              eq_refl eq_refl) as [Hfst Hret].
  { intros k. apply notSuppressed_cleanup; done. }
  change (ticketRegExp (cleanupTicketBuffer bot sweep)) with (ticketRegExp bot).
  change (TICKET_BUFFER_LENGTH (cleanupTicketBuffer bot sweep))
    with (TICKET_BUFFER_LENGTH bot).
  destruct (forEach _ _ {| buffer := ticketBuffer (cleanupTicketBuffer bot sweep) |})
    as [o1 s1].
  destruct (forEach _ _ {| buffer := ticketBuffer bot |}) as [o2 s2].
  simpl in Hfst, Hret. subst o2.
  destruct o1; simpl; [reflexivity|by rewrite Hret].
Qed.

Lemma cleanupTicketBuffer_does_not_change_parseTickets_witness :
  fst (parseTickets (cleanupTicketBuffer bot_busy (t0 - 10)) C1
         (JStr "OLD-1, NEW-2, AB-7 and OLD-1") t0)
  = fst (parseTickets bot_busy C1 (JStr "OLD-1, NEW-2, AB-7 and OLD-1") t0).
Proof.
  apply cleanupTicketBuffer_does_not_change_parseTickets.
  - intros h t Hb. unfold bot_busy in Hb. simpl in Hb.
    apply lookup_insert_Some in Hb as [[_ <-]|[_ Hb]]; [vm_compute; discriminate|].
    apply lookup_insert_Some in Hb as [[_ <-]|[_ Hb]]; [vm_compute; discriminate|].
    by rewrite lookup_empty in Hb.
  - vm_compute. discriminate.
Defined.

(** ** handleMessage *)

(** The loop of [parseTickets] throws in one case: the buffer lets
    [hasOwnProperty] through as a ticket, and a match comes after it. *)
Lemma forEach_throws_iff channel now len buf0 l st :
  "hasOwnProperty" ∉ uniques st ->
  buffer st !! hashTicket channel "hasOwnProperty"
  = buf0 !! hashTicket channel "hasOwnProperty" ->
  fst (forEach (parseTickets_each channel now len) l st) <> None
  <-> exists pre post,
        l = pre ++ "hasOwnProperty" :: post /\ post <> []
        /\ notSuppressed buf0 channel now len "hasOwnProperty" = true.
Proof.
  revert st. induction l as [|x l IH]; intros st Hh Hb; simpl.
  - split; [done|]. intros (pre & post & E & _). by destruct pre.
  - assert (get_or_0 (buffer st) (hashTicket channel "hasOwnProperty")
            = get_or_0 buf0 (hashTicket channel "hasOwnProperty")) as Hget
      by (unfold get_or_0; by rewrite Hb).
    destruct (each_cases channel now len st x)
      as [[? _]|[(_ & E & Hc)|(_ & E & Hu & Ht)]]; [done| |]; rewrite E.
    + rewrite (IH st Hh Hb). split.
      * intros (pre & post & -> & Hpost & Hn). by exists (x :: pre), post.
      * intros (pre & post & El & Hpost & Hn).
        destruct pre as [|y pre]; simpl in El; injection El as -> ->.
        -- exfalso. destruct Hc as [?|Hc]; [done|]. apply Hc.
           unfold notSuppressed in Hn. apply Z.ltb_lt in Hn. by rewrite Hget.
        -- by exists pre, post.
    + destruct (decide (x = "hasOwnProperty")) as [->|Hx].
      * destruct l as [|y l]; simpl.
        -- split; [done|]. intros (pre & post & El & Hpost & _).
           destruct pre as [|? pre]; simpl in El.
           ++ injection El as El. by subst post.
           ++ injection El as _ El. by destruct pre.
        -- unfold parseTickets_each, uniques_hasOwnProperty, uniques_set. simpl.
           rewrite bool_decide_eq_true_2 by set_solver. simpl.
           split; [|done]. intros _. exists [], (y :: l).
           split; [reflexivity|]. split; [done|].
           unfold notSuppressed. rewrite <- Hget. by apply Z.ltb_lt.
      * rewrite IH; simpl.
        -- split.
           ++ intros (pre & post & -> & Hpost & Hn). by exists (x :: pre), post.
           ++ intros (pre & post & El & Hpost & Hn).
              destruct pre as [|y pre]; simpl in El; injection El as -> ->;
                [done|]. by exists pre, post.
        -- unfold uniques_set. destruct (String.eqb x "__proto__"); set_solver.
        -- rewrite lookup_insert_ne; [exact Hb|].
           intros E'. by apply hashTicket_inj in E'.
Qed.

(** X6: [handleMessage] lets an exception out in two cases only, both on
    an ambient message in a channel: its text is truthy and not a string,
    on which [message.match] is not a function; or its text is a string in
    which the pattern matches [hasOwnProperty], not held back by the
    buffer, and something after it, where [uniques.hasOwnProperty] is no
    longer a function.  No failure of the tracker, of a template or of a
    formatter leaves it. *)
Theorem handleMessage_throws_iff h bot message now :
  isThrow (fst (handleMessage h bot message now)) = true
  <-> m_type message = JStr "ambient"
      /\ truthy (m_text message) = true
      /\ truthy (m_channel message) = true
      /\ ((forall s, m_text message <> JStr s)
          \/ exists s pre post,
               m_text message = JStr s
               /\ allMatches (ticketRegExp bot) s = pre ++ "hasOwnProperty" :: post
               /\ post <> []
               /\ notSuppressed (ticketBuffer bot) (m_channel message) now
                    (TICKET_BUFFER_LENGTH bot) "hasOwnProperty" = true).
Proof.
  unfold handleMessage.
  destruct (strict_eq_str (m_type message) "ambient") eqn:Hty; simpl.
  2:{ split; [discriminate|]. intros (Hty' & _).
      apply strict_eq_str_true in Hty'. congruence. }
  apply strict_eq_str_true in Hty.
  destruct (truthy (m_text message)) eqn:Htx; simpl.
  2:{ split; [discriminate|]. intros (_ & ? & _). discriminate. }
  destruct (truthy (m_channel message)) eqn:Hch.
  2:{ unfold parseTickets. rewrite Hch. simpl.
      split; [discriminate|]. intros (_ & _ & ? & _). discriminate. }
  destruct (m_text message) as [| | | |text| | |] eqn:Hm;
    try (unfold parseTickets; rewrite Hch, Htx; simpl;
         split; [intros _; repeat split; try done; left; intros s; discriminate
                |reflexivity]).
  assert (text <> "") as Hne.
  { intros ->. simpl in Htx. discriminate. }
  rewrite (parseTickets_found _ _ _ _ Hch Hne).
  pose proof (forEach_throws_iff (m_channel message) now (TICKET_BUFFER_LENGTH bot)
                (ticketBuffer bot) (allMatches (ticketRegExp bot) text)
                {| retVal := []; uniques := ∅; buffer := ticketBuffer bot |}
                ltac:(simpl; set_solver) eq_refl) as Hiff.
  destruct (forEach _ _ _) as [[e|] st]; simpl in *.
  - split; [|reflexivity]. intros _. repeat split; try done. right.
    destruct (proj1 Hiff ltac:(done)) as (pre & post & E & Hpost & Hn).
    by exists text, pre, post.
  - split.
    + by destruct (retVal st).
    + intros (_ & _ & _ & [Hs | (s & pre & post & [= <-] & E & Hpost & Hn)]);
        [by destruct (Hs text)|].
      exfalso. apply (proj2 Hiff); [|reflexivity]. by exists pre, post.
Qed.

(** A text in which [hasOwnProperty] is a ticket and not the last one:
    [handleMessage] throws, with the ticket recorded and nothing logged. *)
Example handleMessage_hasOwnProperty :
  allMatches (ticketRegExp bot_words) "hasOwnProperty is here"
  = ["hasOwnProperty"; "is"; "here"]
  /\ handleMessage host_sample bot_words
       (ambient "C1" "hasOwnProperty is here") t0
     = (Throw (TypeError "uniques.hasOwnProperty is not a function"),
        set_ticketBuffer bot_words (<["C1-hasOwnProperty" := t0]> ∅)).
Proof. split; vm_compute; reflexivity. Qed.

(** X7: a message is left unanswered, with one line logged and the bot,
    its buffer included, as it was, exactly when its type is not 'ambient'
    or its text is falsy: the tickets of a direct mention or of a direct
    message are neither looked up nor recorded. *)
Theorem handleMessage_answers_ambient_text_only h bot message now :
  handleMessage h bot message now = (Ok [LogCouldNotRespond], bot)
  <-> m_type message <> JStr "ambient" \/ truthy (m_text message) = false.
Proof.
  unfold handleMessage.
  destruct (strict_eq_str (m_type message) "ambient") eqn:Hty; simpl.
  - apply strict_eq_str_true in Hty.
    destruct (truthy (m_text message)) eqn:Htx; simpl.
    + split; [|intros [?|?]; [done|discriminate]].
      destruct (parseTickets bot (m_channel message) (m_text message) now)
        as [[[|k found]|e] bot1]; discriminate.
    + split; [by right|reflexivity].
  - split; [|reflexivity]. intros _. left. intros Hty'.
    apply strict_eq_str_true in Hty'. congruence.
Qed.



Lemma respondTo_replies h bot message issueId atts :
  (ReplyInThread atts ∈ respondTo h bot message issueId ->
   exists issue r,
     fst (issueResponse h bot issue (selectedResponseFormat bot message)) = Ok r
     /\ att_respondInThread r = true)
  /\ (Reply atts ∈ respondTo h bot message issueId ->
      exists issue r,
        fst (issueResponse h bot issue (selectedResponseFormat bot message)) = Ok r
        /\ att_respondInThread r = false).
Proof.
  unfold respondTo.
  destruct (jira_findIssue h issueId) as [issue|e].
  - destruct (fst (issueResponse h bot issue (selectedResponseFormat bot message)))
      as [r|e] eqn:Hr.
    + destruct (att_respondInThread r) eqn:Ht; split; intros Ha;
        repeat (apply elem_of_cons in Ha as [Ha|Ha]; [try discriminate Ha|]);
        try (by apply elem_of_nil in Ha); eauto.
    + split; intros Ha;
        repeat (apply elem_of_cons in Ha as [Ha|Ha]; [try discriminate Ha|]);
        by apply elem_of_nil in Ha.
  - split; intros Ha;
      repeat (apply elem_of_cons in Ha as [Ha|Ha]; [try discriminate Ha|]);
      by apply elem_of_nil in Ha.
Qed.

Lemma issueResponse_respondInThread h bot issue format r :
  fst (issueResponse h bot issue format) = Ok r ->
  exists rf, responseFormats_get bot format = Some rf
             /\ att_respondInThread r = rf_respondInThread rf.
Proof.
  destruct (responseFormats_get bot format) as [rf|] eqn:Hrf.
  - rewrite (issueResponse_eq _ _ _ _ _ Hrf).
    destruct (render_head h issue rf) as [[[? ?] ?]|]; [|discriminate].
    destruct (for_push _ _ issue) as [[fs|e] i']; [|discriminate].
    intros [= <-]. eauto.
  - unfold issueResponse. rewrite Hrf. discriminate.
Qed.

(** X9: a reply goes into the thread of the message exactly when the
    format chosen for the message says [respondInThread]; otherwise it
    goes to the channel.  The format in the thread is one the
    configuration holds; a format [responseFormats] only inherits says
    nothing, and its reply goes to the channel. *)
Theorem handleMessage_replies_where_the_format_says h bot message now acts bot' :
  handleMessage h bot message now = (Ok acts, bot') ->
  forall atts,
    (ReplyInThread atts ∈ acts ->
     exists rf,
       responseFormats (config bot) !! selectedResponseFormat bot message = Some rf
       /\ rf_respondInThread rf = true)
    /\ (Reply atts ∈ acts ->
        exists rf,
          responseFormats_get bot (selectedResponseFormat bot message) = Some rf
          /\ rf_respondInThread rf = false).
Proof.
  intros Hh atts. split; intros Ha.
  - destruct (handleMessage_actions _ _ _ _ _ _ _ Hh Ha)
      as [H|[(found & H)|(issueId & H)]]; try discriminate H.
    apply respondTo_replies in H as (issue & r & Hr & Ht).
    apply issueResponse_respondInThread in Hr as (rf & Hrf & E).
    exists rf. split; [|congruence].
    apply responseFormats_get_inv in Hrf as [Hrf|(_ & _ & ->)]; [exact Hrf|].
    simpl in E. congruence.
  - destruct (handleMessage_actions _ _ _ _ _ _ _ Hh Ha)
      as [H|[(found & H)|(issueId & H)]]; try discriminate H.
    apply respondTo_replies in H as (issue & r & Hr & Ht).
    apply issueResponse_respondInThread in Hr as (rf & Hrf & E).
    exists rf. split; [exact Hrf|congruence].
Qed.

Lemma handleMessage_replies_where_the_format_says_witness :
  exists rf,
    responseFormats (config bot_sample)
      !! selectedResponseFormat bot_sample (ambient "C9" "see PROJ-123")
    = Some rf
    /\ rf_respondInThread rf = true.
Proof.
  apply (proj1 (handleMessage_replies_where_the_format_says host_sample bot_sample
                  (ambient "C9" "see PROJ-123") t0
                  (match fst (handleMessage host_sample bot_sample
                                (ambient "C9" "see PROJ-123") t0) with
                   | Ok acts => acts
                   | Throw _ => []
                   end)
                  (snd (handleMessage host_sample bot_sample
                          (ambient "C9" "see PROJ-123") t0))
                  ltac:(vm_compute; reflexivity)
                  (match fst (handleMessage host_sample bot_sample
                                (ambient "C9" "see PROJ-123") t0) with
                   | Ok [_; _; ReplyInThread atts] => atts
                   | _ => []
                   end))).
  apply list_elem_of_In. vm_compute. right. right. left. reflexivity.
Defined.

(** ** The attachment *)

Lemma issueResponse_Ok_inv h bot issue format r issue' :
  issueResponse h bot issue format = (Ok r, issue') ->
  exists rf text pretext title_ fields_,
    responseFormats_get bot format = Some rf
    /\ render_head h issue rf = Ok (text, pretext, title_)
    /\ for_push (formatField h bot) (default [] (rf_fields rf)) issue
       = (Ok fields_, issue')
    /\ r = {| att_fallback := get_field issue "summary";
              att_respondInThread := rf_respondInThread rf;
              att_text := text;
              att_mrkdwn_in := ["text"];
              att_pretext := pretext;
              att_title := default (get_field issue "summary") title_;
              att_title_link := buildIssueLink bot (key issue);
              att_footer :=
                if rf_hideFooter rf then None
                else Some ("Slack Jira " +:+ PACKAGE_version h +:+ " - "
                           +:+ PACKAGE_homepage h);
              att_fields := fields_ |}.
Proof.
  destruct (responseFormats_get bot format) as [rf|] eqn:Hrf.
  - rewrite (issueResponse_eq _ _ _ _ _ Hrf).
    destruct (render_head h issue rf) as [[[text pretext] title_]|] eqn:Hh;
      [|discriminate].
    destruct (for_push _ _ issue) as [[fs|e] i'] eqn:Hf; [|discriminate].
    intros [= <- <-]. by exists rf, text, pretext, title_, fs.
  - unfold issueResponse. rewrite Hrf. discriminate.
Qed.

(** X10: an attachment is returned only for a name [responseFormats] has,
    as a format of the configuration or as a member every object inherits
    (as [constructor]), which is a format that sets no option; its
    fallback is then the summary, its link the browse link of the issue
    key, its thread flag the one of the format, its footer there unless the
    format hides it, and its text there exactly when the format asks for
    the description, which it then holds converted. *)
Theorem issueResponse_follows_the_format h bot issue format r issue' :
  issueResponse h bot issue format = (Ok r, issue') ->
  exists rf,
    responseFormats_get bot format = Some rf
    /\ (responseFormats (config bot) !! format = Some rf
        \/ (responseFormats (config bot) !! format = None
            /\ is_Some (Object_prototype format)
            /\ rf = {| rf_description := false;
                       rf_pretext := None;
                       rf_title := None;
                       rf_hideFooter := false;
                       rf_respondInThread := false;
                       rf_fields := None |}))
    /\ att_fallback r = get_field issue "summary"
    /\ att_mrkdwn_in r = ["text"]
    /\ att_title_link r = buildIssueLink bot (key issue)
    /\ att_respondInThread r = rf_respondInThread rf
    /\ (rf_hideFooter rf = true -> att_footer r = None)
    /\ (rf_hideFooter rf = false ->
        att_footer r = Some ("Slack Jira " +:+ PACKAGE_version h +:+ " - "
                             +:+ PACKAGE_homepage h))
    /\ (rf_description rf = false -> att_text r = None)
    /\ (rf_description rf = true ->
        exists t, att_text r = Some t
                  /\ formatIssueDescription h (get_field issue "description") = Ok t).
Proof.
  intros Hok.
  apply issueResponse_Ok_inv in Hok
    as (rf & text & pretext & title_ & fs & Hrf & Hhead & _ & ->).
  exists rf. simpl. split; [exact Hrf|].
  split; [by apply responseFormats_get_inv|].
  repeat (split; [try done|]).
  - by intros ->.
  - by intros ->.
  - intros Hd. unfold render_head in Hhead. rewrite Hd in Hhead.
    destruct (match rf_pretext rf with Some _ => _ | None => _ end);
      [|discriminate].
    destruct (match rf_title rf with Some _ => _ | None => _ end);
      [|discriminate].
    congruence.
  - intros Hd. unfold render_head in Hhead. rewrite Hd in Hhead.
    destruct (formatIssueDescription h (get_field issue "description")) as [t|];
      [|discriminate].
    destruct (match rf_pretext rf with Some _ => _ | None => _ end);
      [|discriminate].
    destruct (match rf_title rf with Some _ => _ | None => _ end);
      [|discriminate].
    exists t. split; congruence.
Qed.

Lemma issueResponse_follows_the_format_witness :
  exists rf,
    responseFormats (config bot_sample) !! "micro" = Some rf
    /\ rf_description rf = false
    /\ forall r,
         fst (issueResponse host_sample bot_sample issue_PROJ_123 "micro") = Ok r ->
         att_text r = None.
Proof.
  destruct (issueResponse host_sample bot_sample issue_PROJ_123 "micro")
    as [[r|e] issue'] eqn:Hr; [|vm_compute in Hr; discriminate Hr].
  destruct (issueResponse_follows_the_format _ _ _ _ _ _ Hr)
    as (rf & Hrf & _ & _ & _ & _ & _ & _ & _ & Htext & _).
  vm_compute in Hrf. injection Hrf as <-.
  eexists. split; [vm_compute; reflexivity|].
  split; [reflexivity|]. intros r' [= <-]. by apply Htext.
Defined.

(** X11: the title of an attachment is the summary when the format
    configures no title template, and otherwise what the template
    evaluates to on the issue; the pretext is absent without a pretext
    template and otherwise what that template evaluates to. *)
Theorem issueResponse_title_and_pretext h bot issue format r issue' :
  issueResponse h bot issue format = (Ok r, issue') ->
  exists rf,
    responseFormats_get bot format = Some rf
    /\ (rf_title rf = None \/ rf_title rf = Some "" ->
        att_title r = get_field issue "summary")
    /\ (forall src, rf_title rf = Some src -> src <> "" ->
                    js_eval h src issue = Ok (att_title r))
    /\ (rf_pretext rf = None \/ rf_pretext rf = Some "" -> att_pretext r = None)
    /\ (forall src, rf_pretext rf = Some src -> src <> "" ->
                    exists v, att_pretext r = Some v /\ js_eval h src issue = Ok v).
Proof.
  intros Hok.
  apply issueResponse_Ok_inv in Hok
    as (rf & text & pretext & title_ & fs & Hrf & Hhead & _ & ->).
  exists rf. split; [exact Hrf|]. simpl.
  unfold render_head in Hhead.
  destruct (if rf_description rf then _ else _); [|discriminate].
  destruct (rf_pretext rf) as [p|] eqn:Hp;
    [destruct (String.eqb_spec p "") as [->|Hpne];
     [|destruct (js_eval h p issue) as [pv|] eqn:Hpv; [|discriminate]]|];
    (destruct (rf_title rf) as [t|] eqn:Htl;
     [destruct (String.eqb_spec t "") as [->|Htne];
      [|destruct (js_eval h t issue) as [tv|] eqn:Htv; [|discriminate]]|]);
    injection Hhead as <- <- <-; simpl;
    repeat split;
    try (intros [?|?]; congruence);
    try (intros src [= <-] Hsrc; try done; eauto).
Qed.

Lemma issueResponse_title_and_pretext_witness :
  exists r,
    fst (issueResponse host_sample bot_sample issue_PROJ_123 "micro") = Ok r
    /\ js_eval host_sample "`${issue.key}: ${issue.fields.summary}`" issue_PROJ_123
       = Ok (att_title r)
    /\ att_title r = JStr "PROJ-123: Blah".
Proof.
  destruct (issueResponse host_sample bot_sample issue_PROJ_123 "micro")
    as [[r|e] issue'] eqn:Hr; [|vm_compute in Hr; discriminate Hr].
  destruct (issueResponse_title_and_pretext _ _ _ _ _ _ Hr)
    as (rf & Hrf & _ & Htitle & _).
  vm_compute in Hrf. injection Hrf as <-.
  assert (js_eval host_sample "`${issue.key}: ${issue.fields.summary}`"
            issue_PROJ_123 = Ok (att_title r)) as E
    by (apply Htitle; [reflexivity|discriminate]).
  exists r. split; [reflexivity|]. split; [exact E|].
  assert (js_eval host_sample "`${issue.key}: ${issue.fields.summary}`"
            issue_PROJ_123 = Ok (JStr "PROJ-123: Blah")) as E'
    by (vm_compute; reflexivity).
  congruence.
Defined.


(** ** The field list *)

Lemma fold_left_last_wins {A B} (g : A -> B) (l : list A) (init : option B) :
  fold_left (fun _ k => Some (g k)) l init
  = match last l with
    | Some k => Some (g k)
    | None => init
    end.
Proof.
  revert init. induction l as [|x l IH]; intros init; simpl; [reflexivity|].
  rewrite IH. destruct l as [|a l]; [reflexivity|].
  change (last (x :: a :: l)) with (last (a :: l)).
  destruct (last (a :: l)) eqn:E; [reflexivity|].
  by apply last_None in E.
Qed.

Lemma formatField_title h bot name i f j :
  formatField h bot name i = (Ok (Some f), j) -> title f = name.
Proof.
  unfold formatField.
  destruct (fieldFormatters h bot name) as [m|].
  - unfold bind. destruct (m i) as [[[fm|]|e] i']; simpl; [|discriminate..].
    by intros [= <- _].
  - destruct (customFields (jira (config bot))) as [[|kv kvs]|];
      [discriminate| |discriminate].
    unfold bind, the_issue, ret. rewrite fold_left_last_wins.
    destruct (last (map fst (kv :: kvs))); [|discriminate].
    by intros [= <- _].
Qed.

(** X12: the field list of an attachment has one entry for each name the
    format declares, in the declared order, and an entry that is not
    [null] bears the declared name as its title; a format without fields,
    or with an empty list of them, gives an empty field list and leaves
    the issue untouched. *)
Theorem issueResponse_fields_in_declared_order h bot issue format rf r issue' :
  responseFormats (config bot) !! format = Some rf ->
  issueResponse h bot issue format = (Ok r, issue') ->
  Forall2 (fun name entry => entry = None \/ exists f, entry = Some f /\ title f = name)
    (default [] (rf_fields rf)) (att_fields r)
  /\ (rf_fields rf = None \/ rf_fields rf = Some [] ->
      att_fields r = [] /\ issue' = issue).
Proof.
  intros Hrf Hok.
  pose proof (issueResponse_Ok_fields _ _ _ _ _ _ _
                (responseFormats_get_own _ _ _ Hrf) Hok) as Hloop.
  split.
  - apply for_push_ok in Hloop.
    eapply Forall2_impl; [exact Hloop|].
    intros name [f|] (j & j' & Hb); [|by left].
    right. exists f. split; [reflexivity|]. by eapply formatField_title.
  - intros Hnone.
    assert (default [] (rf_fields rf) = []) as E
      by (destruct Hnone as [-> | ->]; reflexivity).
    rewrite E in Hloop. simpl in Hloop. unfold ret in Hloop.
    injection Hloop as <- <-. done.
Qed.

Lemma issueResponse_fields_in_declared_order_witness :
  exists r issue',
    issueResponse host_sample bot_sample issue_PROJ_123 "points" = (Ok r, issue')
    /\ Forall2
         (fun name entry => entry = None \/ exists f, entry = Some f /\ title f = name)
         ["Status"; "Story Points"; "Priority"] (att_fields r).
Proof.
  destruct (issueResponse host_sample bot_sample issue_PROJ_123 "points")
    as [[r|e] issue'] eqn:Hok; [|vm_compute in Hok; discriminate Hok].
  exists r, issue'. split; [reflexivity|].
  apply (issueResponse_fields_in_declared_order host_sample bot_sample
           issue_PROJ_123 "points"
           {| rf_description := false;
              rf_pretext := None;
              rf_title := None;
              rf_hideFooter := true;
              rf_respondInThread := false;
              rf_fields := Some ["Status"; "Story Points"; "Priority"] |}
           r issue' ltac:(vm_compute; reflexivity) Hok).
Defined.

(** X13: a name that is not built in is not looked up in [customFields]:
    once any custom field is configured, the entry of every such name
    shows the issue field of the last key of [customFields], and the issue
    is only read. *)
Theorem formatField_custom_shows_the_last_key h bot name i kvs k d :
  fieldFormatters h bot name = None ->
  customFields (jira (config bot)) = Some (kvs ++ [(k, d)]) ->
  formatField h bot name i
  = (Ok (Some {| title := name; value := get_field i k; short := false |}), i).
Proof.
  intros Hff Hcf. unfold formatField. rewrite Hff, Hcf.
  destruct (kvs ++ [(k, d)]) as [|kv kvs'] eqn:E; [by destruct kvs|].
  unfold bind, the_issue, ret. rewrite fold_left_last_wins.
  rewrite <- E, map_app. simpl. by rewrite last_snoc.
Qed.

Lemma formatField_custom_shows_the_last_key_witness :
  formatField host_sample bot_custom "Story Points"
    (set_field (set_field issue_PROJ_123 "customfield_10002" (JNum 5))
       "customfield_10003" (JStr "Platform"))
  = (Ok (Some {| title := "Story Points"; value := JStr "Platform"; short := false |}),
     set_field (set_field issue_PROJ_123 "customfield_10002" (JNum 5))
       "customfield_10003" (JStr "Platform")).
Proof.
  etrans.
  - apply (formatField_custom_shows_the_last_key host_sample bot_custom
             "Story Points" _ [("customfield_10002", "Story Points")]
             "customfield_10003" "Team"); reflexivity.
  - rewrite get_set_field. reflexivity.
Defined.

(** ** The Sprint entry *)

Lemma formatField_Sprint_pops h bot i l s :
  sprintField (jira (config bot)) <> "" ->
  get_field i (sprintField (jira (config bot))) = JArr (l ++ [JStr s]) ->
  formatField h bot "Sprint" i
  = (Ok (Some {| title := "Sprint";
                 value := JStr (default "Not Assigned" (match_name s));
                 short := false |}),
     set_field i (sprintField (jira (config bot))) (JArr l)).
Proof.
  intros Hsf Hfield. unfold formatField, fieldFormatters. simpl.
  destruct (String.eqb_spec (sprintField (jira (config bot))) ""); [done|]. simpl.
  unfold bind, parseSprint. rewrite Hfield, pop_snoc.
  destruct (match_name s) as [v|] eqn:Hm; simpl; [|reflexivity].
  pose proof (match_name_nonempty _ _ Hm).
  by destruct (String.eqb_spec v "").
Qed.

(** X14: a format that lists Sprint twice shows two sprints: the first
    entry is made from the last string of the sprint list, the second from
    the one before it, and the issue ends with both removed. *)
Theorem formatField_Sprint_twice h bot issue earlier s1 s2 :
  sprintField (jira (config bot)) <> "" ->
  get_field issue (sprintField (jira (config bot)))
  = JArr (earlier ++ [JStr s1; JStr s2]) ->
  for_push (formatField h bot) ["Sprint"; "Sprint"] issue
  = (Ok [Some {| title := "Sprint";
                 value := JStr (default "Not Assigned" (match_name s2));
                 short := false |};
         Some {| title := "Sprint";
                 value := JStr (default "Not Assigned" (match_name s1));
                 short := false |}],
     set_field issue (sprintField (jira (config bot))) (JArr earlier)).
Proof.
  intros Hsf Hfield. simpl. unfold bind at 1.
  rewrite (formatField_Sprint_pops h bot issue (earlier ++ [JStr s1]) s2 Hsf)
    by (by rewrite <- app_assoc).
  unfold bind at 1. unfold bind at 1.
  rewrite (formatField_Sprint_pops h bot _ earlier s1 Hsf)
    by apply get_set_field.
  unfold bind, ret. by rewrite set_set_field.
Qed.

Lemma formatField_Sprint_twice_witness :
  for_push (formatField host_sample bot_sample) ["Sprint"; "Sprint"] issue_PROJ_123
  = (Ok [Some {| title := "Sprint"; value := JStr "Sprint 8"; short := false |};
         Some {| title := "Sprint"; value := JStr "Sprint 7"; short := false |}],
     set_field issue_PROJ_123 "customfield_10000" (JArr [])).
Proof.
  apply (formatField_Sprint_twice host_sample bot_sample issue_PROJ_123 []
           "derp,name=Sprint 7,foo" "derp,name=Sprint 8,foo");
    [discriminate | vm_compute; reflexivity].
Defined.

(** X15: with a sprint field configured, an issue that has nothing in it
    (the field absent, [null] or an empty list) gets a Sprint entry that
    says "Not Assigned", and is left as it was. *)
Theorem formatField_Sprint_of_no_sprint h bot i :
  sprintField (jira (config bot)) <> "" ->
  nullish (get_field i (sprintField (jira (config bot)))) = true
  \/ get_field i (sprintField (jira (config bot))) = JArr [] ->
  formatField h bot "Sprint" i
  = (Ok (Some {| title := "Sprint"; value := JStr "Not Assigned"; short := false |}),
     i).
Proof.
  intros Hsf Hnone. unfold formatField, fieldFormatters. simpl.
  destruct (String.eqb_spec (sprintField (jira (config bot))) ""); [done|]. simpl.
  unfold bind, parseSprint.
  destruct Hnone as [Hn | ->]; [|reflexivity].
  by destruct (get_field i (sprintField (jira (config bot)))).
Qed.

Lemma formatField_Sprint_of_no_sprint_witness :
  formatField host_sample bot_sample "Sprint" issue_AB_7
  = (Ok (Some {| title := "Sprint"; value := JStr "Not Assigned"; short := false |}),
     issue_AB_7).
Proof.
  apply formatField_Sprint_of_no_sprint; [discriminate|].
  left. vm_compute. reflexivity.
Defined.

(** X16: when the last element of the sprint list is not a string, the
    Sprint entry throws, and throws after the element was taken off: the
    exception leaves the issue with a shorter list. *)
Theorem formatField_Sprint_not_a_string h bot i l x :
  sprintField (jira (config bot)) <> "" ->
  get_field i (sprintField (jira (config bot))) = JArr (l ++ [x]) ->
  (forall s, x <> JStr s) ->
  formatField h bot "Sprint" i
  = (Throw (TypeError "sprintString.match is not a function"),
     set_field i (sprintField (jira (config bot))) (JArr l)).
Proof.
  intros Hsf Hfield Hx. unfold formatField, fieldFormatters. simpl.
  destruct (String.eqb_spec (sprintField (jira (config bot))) ""); [done|]. simpl.
  unfold bind, parseSprint. rewrite Hfield, pop_snoc.
  destruct x; try reflexivity. by destruct (Hx s).
Qed.

Lemma formatField_Sprint_not_a_string_witness :
  formatField host_sample bot_sample "Sprint"
    (set_field issue_AB_7 "customfield_10000" (JArr [JStr "a"; JNum 8]))
  = (Throw (TypeError "sprintString.match is not a function"),
     set_field (set_field issue_AB_7 "customfield_10000" (JArr [JStr "a"; JNum 8]))
       "customfield_10000" (JArr [JStr "a"])).
Proof.
  apply (formatField_Sprint_not_a_string host_sample bot_sample _ [JStr "a"] (JNum 8));
    [discriminate | vm_compute; reflexivity | intros s; discriminate].
Defined.

(** ** People and links *)

(** X17: the Reporter and Assignee entries show the Slack name the
    [usermap] gives for the person's tracker name, with an at sign in
    front, and fall back to the person's display name when the map has no
    name, or an empty one, for the person; the issue is only read.  The
    map has a name for whoever is called as a member every object inherits
    (as [constructor]): that member, written out after the at sign. *)
Theorem formatField_person_prefers_usermap h bot name field i kvs :
  (name, field) ∈ people ->
  get_field i field = JObj kvs ->
  exists f,
    formatField h bot name i = (Ok (Some f), i)
    /\ title f = name /\ short f = true
    /\ (forall u,
          usermap (config bot)
            !! js_toString (default JUndefined (assoc "name" kvs)) = Some u ->
          u <> "" -> value f = JStr ("@" +:+ u))
    /\ ((usermap (config bot)
           !! js_toString (default JUndefined (assoc "name" kvs)) = None
         /\ Object_prototype (js_toString (default JUndefined (assoc "name" kvs)))
            = None)
        \/ usermap (config bot)
             !! js_toString (default JUndefined (assoc "name" kvs)) = Some "" ->
        value f = default JUndefined (assoc "displayName" kvs))
    /\ (forall v,
          usermap (config bot)
            !! js_toString (default JUndefined (assoc "name" kvs)) = None ->
          Object_prototype (js_toString (default JUndefined (assoc "name" kvs)))
          = Some v ->
          value f = JStr ("@" +:+ js_toString v)).
Proof.
  intros Hin Hfield. unfold people in Hin.
  repeat (apply elem_of_cons in Hin as [[= -> ->]|Hin]);
    [| |by apply elem_of_nil in Hin];
    unfold formatField, fieldFormatters, slackOrDisplayName, bind, issue_field,
      lift, ret, jira2Slack, member;
    simpl; repeat (rewrite !Hfield; simpl);
    replace (match assoc "name" kvs with
             | Some w => w
             | None => JUndefined
             end) with (default JUndefined (assoc "name" kvs))
      by (by destruct (assoc "name" kvs));
    (destruct (usermap (config bot)
                 !! js_toString (default JUndefined (assoc "name" kvs)))
       as [u|] eqn:Hu;
     [destruct (String.eqb_spec u "") as [->|Hne]
     |destruct (Object_prototype
                  (js_toString (default JUndefined (assoc "name" kvs))))
        as [v|] eqn:Hv]);
    str_simpl; simpl; repeat (rewrite !Hfield; simpl);
    (eexists; split; [reflexivity|]; simpl;
     repeat split;
     try (intros u' [= <-] ?; done);
     try (intros [[? ?]|?]; by (congruence || destruct (assoc "displayName" kvs)));
     try (intros v' ? [= <-]; done);
     try discriminate; try done).
Qed.

Lemma formatField_person_prefers_usermap_witness :
  exists f,
    formatField host_sample bot_sample "Reporter" issue_PROJ_123
    = (Ok (Some f), issue_PROJ_123)
    /\ value f = JStr "@robert".
Proof.
  destruct (formatField_person_prefers_usermap host_sample bot_sample
              "Reporter" "reporter" issue_PROJ_123
              [("name", JStr "bob"); ("displayName", JStr "Bob")])
    as (f & Hf & _ & _ & Hmap & _ & _);
    [apply list_elem_of_In; simpl; tauto | vm_compute; reflexivity |].
  exists f. split; [exact Hf|].
  apply (Hmap "robert"); [vm_compute; reflexivity|discriminate].
Defined.

Lemma strip_trailing_slash_snoc (b : string) : strip_trailing_slash (b +:+ "/") = b.
Proof.
  induction b as [|c b IH]; [reflexivity|].
  str_simpl. simpl. rewrite IH. by destruct b.
Qed.

Lemma strip_slashes_wrapped (b : string) : strip_slashes ("/" +:+ b +:+ "/") = b.
Proof. unfold strip_slashes. str_simpl. simpl. apply strip_trailing_slash_snoc. Qed.

(** X18: a base path is wrapped in single slashes whether or not it was
    configured with them: for a path [b] that neither starts nor ends with
    a slash, the bases [b] and [/b/] give the same link,
    [protocol://host:port/b/browse/KEY]. *)
Theorem buildIssueLink_base_with_or_without_slashes bot1 bot2 b issueKey :
  protocol (jira (config bot1)) = protocol (jira (config bot2)) ->
  host (jira (config bot1)) = host (jira (config bot2)) ->
  port (jira (config bot1)) = port (jira (config bot2)) ->
  b <> "" -> strip_slashes b = b ->
  base (jira (config bot1)) = b ->
  base (jira (config bot2)) = "/" +:+ b +:+ "/" ->
  buildIssueLink bot1 issueKey = buildIssueLink bot2 issueKey
  /\ buildIssueLink bot1 issueKey
     = protocol (jira (config bot1)) +:+ "://" +:+ host (jira (config bot1))
       +:+ ":" +:+ pretty (port (jira (config bot1)))
       +:+ "/" +:+ b +:+ "/browse/" +:+ issueKey.
Proof.
  intros Hp Hh Hport Hb Hnorm Hb1 Hb2. unfold buildIssueLink. cbv zeta.
  rewrite Hb1, Hb2, <- Hp, <- Hh, <- Hport, strip_slashes_wrapped, Hnorm.
  destruct (String.eqb_spec b ""); [done|].
  destruct (String.eqb_spec ("/" +:+ b +:+ "/") ""); [discriminate|].
  split; [reflexivity|]. by rewrite !app_assoc_str.
Qed.

Lemma buildIssueLink_base_with_or_without_slashes_witness :
  buildIssueLink bot_custom "PROJ-123" = buildIssueLink bot_sample "PROJ-123"
  /\ buildIssueLink bot_custom "PROJ-123"
     = "https://jira.yourhost.domain:443/jira/browse/PROJ-123".
Proof.
  destruct (buildIssueLink_base_with_or_without_slashes bot_custom bot_sample
              "jira" "PROJ-123") as [H1 H2];
    try reflexivity; try discriminate.
  split; [exact H1|]. rewrite H2. vm_compute. reflexivity.
Defined.

(** ** The same message twice *)

(** X19: an ambient message whose matches are plain tickets with no
    buffer entry is answered once: handled again up to [TICKET_BUFFER_LENGTH] later, the same
    message makes [handleMessage] do nothing at all, no lookup, no log, no
    reply, and leave the bot as the first call left it. *)
Theorem handleMessage_does_not_answer_twice h bot channel text now delta :
  truthy channel = true -> text <> "" ->
  Forall plain_ticket (allMatches (ticketRegExp bot) text) ->
  TICKET_BUFFER_LENGTH bot < now ->
  (forall k, k ∈ allMatches (ticketRegExp bot) text ->
             ticketBuffer bot !! hashTicket channel k = None) ->
  delta <= TICKET_BUFFER_LENGTH bot ->
  let message := {| m_type := JStr "ambient"; m_event := JStr "ambient";
                    m_channel := channel; m_text := JStr text |} in
  let bot1 := snd (handleMessage h bot message now) in
  detected (match fst (handleMessage h bot message now) with
            | Ok acts => acts
            | Throw _ => []
            end)
  = firstOccurrences ∅ (allMatches (ticketRegExp bot) text)
  /\ handleMessage h bot1 message (now + delta) = (Ok [], bot1).
Proof.
  intros Hc Ht Hplain Hnow Hfresh Hd message bot1.
  destruct (parseTickets_again bot channel text now delta Hc Ht Hplain Hnow Hfresh)
    as (Hfirst & Hagain & _).
  specialize (Hagain Hd).
  assert (truthy (JStr text) = true) as Htruthy
    by (simpl; by destruct (String.eqb_spec text "")).
  assert (snd (handleMessage h bot message now)
          = snd (parseTickets bot channel (JStr text) now)
          /\ detected (match fst (handleMessage h bot message now) with
                       | Ok acts => acts
                       | Throw _ => []
                       end)
             = firstOccurrences ∅ (allMatches (ticketRegExp bot) text))
    as [Hsnd Hdet].
  { unfold handleMessage, message. cbn [m_type m_text m_channel].
    rewrite Htruthy. simpl strict_eq_str. cbv iota. simpl andb. cbv iota.
    destruct (parseTickets bot channel (JStr text) now) as [[found|e] b] eqn:Hp;
      simpl in Hfirst; [|discriminate].
    injection Hfirst as ->.
    by destruct (firstOccurrences ∅ (allMatches (ticketRegExp bot) text)). }
  split; [exact Hdet|].
  unfold bot1. rewrite Hsnd.
  unfold handleMessage, message. cbn [m_type m_text m_channel].
  rewrite Htruthy. simpl strict_eq_str. cbv iota. simpl andb. cbv iota.
  by rewrite Hagain.
Qed.

Lemma handleMessage_does_not_answer_twice_witness :
  let message := ambient "C1" "see PROJ-123 and AB-7, PROJ-123 again" in
  let bot1 := snd (handleMessage host_sample bot_default message t0) in
  handleMessage host_sample bot1 message (t0 + 300000) = (Ok [], bot1).
Proof.
  intros message bot1.
  apply (handleMessage_does_not_answer_twice host_sample bot_default (JStr "C1")
           "see PROJ-123 and AB-7, PROJ-123 again" t0 300000);
    [reflexivity | discriminate
    | apply plain_tickets_dec; vm_compute; reflexivity
    | vm_compute; reflexivity
    | intros k _; reflexivity | vm_compute; discriminate].
Defined.

(** ** parseTickets when it throws *)

Lemma forEach_throw channel now len l st e :
  fst (forEach (parseTickets_each channel now len) l st) = Some e ->
  e = TypeError "uniques.hasOwnProperty is not a function"
  /\ "hasOwnProperty" ∈ uniques (snd (forEach (parseTickets_each channel now len) l st)).
Proof.
  revert st. induction l as [|x l IH]; intros st; simpl; [discriminate|].
  unfold parseTickets_each at 1 3, uniques_hasOwnProperty.
  destruct (decide ("hasOwnProperty" ∈ uniques st)) as [Hh|Hh].
  - rewrite bool_decide_eq_true_2 by done. simpl. by intros [= <-].
  - rewrite bool_decide_eq_false_2 by done.
    destruct (negb _ && _); apply IH.
Qed.

Lemma forEach_uniques_gathered channel now len l st :
  (forall k, k ∈ uniques st -> k ∈ retVal st) ->
  forall k,
    k ∈ uniques (snd (forEach (parseTickets_each channel now len) l st)) ->
    k ∈ retVal (snd (forEach (parseTickets_each channel now len) l st)).
Proof.
  revert st. induction l as [|x l IH]; intros st Hinv; simpl; [exact Hinv|].
  destruct (each_cases channel now len st x)
    as [[_ [e E]]|[(_ & E & _)|(_ & E & _)]]; rewrite E; simpl.
  - exact Hinv.
  - by apply IH.
  - apply IH. simpl. intros k Hk. apply elem_of_app.
    unfold uniques_set in Hk. destruct (String.eqb x "__proto__"); set_solver.
Qed.

(** X21: [parseTickets] on a string throws for one reason, the call of
    [uniques.hasOwnProperty] after a ticket named [hasOwnProperty] was
    accepted, and it throws with the buffer half written: the tickets
    accepted before the exception, [hasOwnProperty] among them, are
    recorded at the time of the call although none is returned. *)
Theorem parseTickets_throws_with_the_buffer_written bot channel text now e bot' :
  parseTickets bot channel (JStr text) now = (Throw e, bot') ->
  e = TypeError "uniques.hasOwnProperty is not a function"
  /\ ticketBuffer bot' !! hashTicket channel "hasOwnProperty" = Some now
  /\ exists accepted,
       bot' = set_ticketBuffer bot (record_all channel now accepted (ticketBuffer bot))
       /\ "hasOwnProperty" ∈ accepted
       /\ (forall k, k ∈ accepted -> k ∈ allMatches (ticketRegExp bot) text).
Proof.
  intros Hp.
  destruct (truthy channel) eqn:Hc;
    [|unfold parseTickets in Hp; rewrite Hc in Hp; discriminate].
  destruct (String.eqb_spec text "") as [->|Hne];
    [unfold parseTickets in Hp; rewrite Hc in Hp; discriminate|].
  rewrite (parseTickets_found _ _ _ _ Hc Hne) in Hp.
  pose proof (forEach_throw channel now (TICKET_BUFFER_LENGTH bot)
                (allMatches (ticketRegExp bot) text)
                {| retVal := []; uniques := ∅; buffer := ticketBuffer bot |}) as Hthrow.
  pose proof (forEach_uniques_gathered channel now (TICKET_BUFFER_LENGTH bot)
                (allMatches (ticketRegExp bot) text)
                {| retVal := []; uniques := ∅; buffer := ticketBuffer bot |}
                ltac:(simpl; set_solver)) as Hgathered.
  destruct (forEach_spec channel now (TICKET_BUFFER_LENGTH bot)
              (allMatches (ticketRegExp bot) text)
              {| retVal := []; uniques := ∅; buffer := ticketBuffer bot |})
    as (accepted & Hr & Hb & Hin).
  destruct (forEach _ _ _) as [[e'|] st]; simpl in *; [|discriminate].
  injection Hp as <- <-.
  destruct (Hthrow e' eq_refl) as [-> Hh].
  apply Hgathered in Hh. rewrite Hr in Hh.
  split; [reflexivity|]. split.
  - simpl. rewrite Hb. by apply record_all_lookup_in.
  - exists accepted. rewrite Hb. done.
Qed.

Lemma parseTickets_throws_with_the_buffer_written_witness :
  ticketBuffer (snd (parseTickets bot_words C1 (JStr "hasOwnProperty is here") t0))
    !! hashTicket C1 "hasOwnProperty"
  = Some t0.
Proof.
  destruct (parseTickets bot_words C1 (JStr "hasOwnProperty is here") t0)
    as [[r|e] bot'] eqn:Hp; [vm_compute in Hp; discriminate Hp|].
  apply (parseTickets_throws_with_the_buffer_written bot_words C1
           "hasOwnProperty is here" t0 e bot' Hp).
Defined.
